(** * The metadata API handlers of [handlers/__init__.py]

    A shallow embedding of the request handlers and of the route table of the
    libvirt metadata API, with the parts of Python ([str], [list], [dict],
    [re]) and of Tornado (URL specs, first-match dispatch, the
    prepare/get/finish life cycle of a request handler) that they run on. *)

From Stdlib Require Import String Ascii List Bool Arith Lia.
From Stdlib Require Import DecimalString DecimalNat.
Import ListNotations.
Open Scope string_scope.
Open Scope nat_scope.
Open Scope list_scope.

(** ** Python strings, lists and dictionaries *)

Module Py.

(** The line feed, written [\n] in the Python source. *)
Definition LF : ascii := ascii_of_nat 10.
Definition nl : string := String LF EmptyString.

(** [sep.join(items)] *)
Fixpoint join (sep : string) (items : list string) : string :=
  match items with
  | [] => ""
  | [x] => x
  | x :: rest => x ++ sep ++ join sep rest
  end.

(** [s.startswith(p)] *)
Fixpoint startswith (s p : string) : bool :=
  match p, s with
  | EmptyString, _ => true
  | String a p', String b s' => Ascii.eqb a b && startswith s' p'
  | String _ _, EmptyString => false
  end.

(** [p in s] for two strings: [p] occurs somewhere in [s]. *)
Fixpoint contains (p s : string) : bool :=
  startswith s p ||
  match s with
  | EmptyString => false
  | String _ s' => contains p s'
  end.

(** [s.endswith(p)] *)
Fixpoint endswith (s p : string) : bool :=
  String.eqb s p ||
  match s with
  | EmptyString => false
  | String _ s' => endswith s' p
  end.

Definition is_digit (c : ascii) : bool :=
  (48 <=? nat_of_ascii c) && (nat_of_ascii c <=? 57).

(** [int(s)] on the digit strings that the [\d+] of the route table lets
    through; any other text is a [ValueError], here [None]. *)
Definition int (s : string) : option nat :=
  match s with
  | EmptyString => None
  | _ => option_map Nat.of_uint (NilEmpty.uint_of_string s)
  end.

(** ["%d" % n] *)
Definition percent_d (n : nat) : string :=
  NilEmpty.string_of_uint (Nat.to_uint n).

(** [enumerate(items)] *)
Fixpoint enumerate_from {A} (i : nat) (items : list A) : list (nat * A) :=
  match items with
  | [] => []
  | x :: rest => (i, x) :: enumerate_from (S i) rest
  end.

Definition enumerate {A} (items : list A) : list (nat * A) :=
  enumerate_from 0 items.

(** A dictionary in its iteration order. *)
Definition dict (V : Type) : Type := list (string * V).

Definition keys {V} (d : dict V) : list string := map fst d.
Definition values {V} (d : dict V) : list V := map snd d.

(** [d[k]]; [None] stands for the [KeyError]. *)
Fixpoint getitem {V} (d : dict V) (k : string) : option V :=
  match d with
  | [] => None
  | (k', v) :: rest => if String.eqb k' k then Some v else getitem rest k
  end.

(** The exceptions the handlers can raise. *)
Inductive exn : Type :=
| AssertionError
| AttributeError
| IndexError
| KeyError (k : string)
| TypeError
| ValueError
| ReError.

End Py.

(** ** The part of [re] that the route table and the listing use *)

Module Re.

Import Py.

(** One character: a literal, a negated set [[^...]] or [\d]. *)
Inductive cclass : Type :=
| Chr (c : ascii)
| NotIn (cs : list ascii)
| Digit.

Inductive quant : Type := Once | Optional | OneOrMore.

(** A pattern is a sequence of nodes: a character class under a quantifier,
    a capturing group (named by [(?P<name>...)]) or the anchor [$]. *)
#[warnings="-register-all"] Inductive node : Type :=
| NChars (k : cclass) (q : quant)
| NGroup (name : option string) (body : list node)
| NEnd.

Definition regex : Type := list node.

(** *** Compiling the pattern text *)

Definition is_alnum (c : ascii) : bool :=
  let n := nat_of_ascii c in
  ((48 <=? n) && (n <=? 57)) || ((65 <=? n) && (n <=? 90))
  || ((97 <=? n) && (n <=? 122)).

(** The members of a set, up to the closing bracket; a backslash quotes the
    character after it.  Ranges are outside the subset. *)
Fixpoint parse_set (s : string) : option (list ascii * string) :=
  match s with
  | EmptyString => None
  | String "]" s' => Some ([], s')
  | String "-" _ => None
  | String "\" (String c s') =>
      if is_alnum c then None
      else match parse_set s' with
           | Some (cs, r) => Some (c :: cs, r)
           | None => None
           end
  | String c s' =>
      match parse_set s' with
      | Some (cs, r) => Some (c :: cs, r)
      | None => None
      end
  end.

(** One character class at the head of the text. *)
Definition parse_class (s : string) : option (cclass * string) :=
  match s with
  | String "[" (String "^" s') =>
      match parse_set s' with
      | Some (c :: cs, r) => Some (NotIn (c :: cs), r)
      | _ => None
      end
  | String "\" (String "d" s') => Some (Digit, s')
  | String "\" (String c s') =>
      if is_alnum c then None else Some (Chr c, s')
  | String c s' =>
      if existsb (Ascii.eqb c) ["."; "^"; "*"; "+"; "?"; "{"; "|"; "["; "\"]%char
      then None else Some (Chr c, s')
  | EmptyString => None
  end.

Definition parse_quant (s : string) : quant * string :=
  match s with
  | String "+" s' => (OneOrMore, s')
  | String "?" s' => (Optional, s')
  | _ => (Once, s)
  end.

(** The name of a group, up to the closing [>]. *)
Fixpoint parse_name (s : string) : option (string * string) :=
  match s with
  | EmptyString => None
  | String ">" s' => Some ("", s')
  | String c s' =>
      match parse_name s' with
      | Some (n, r) => Some (String c n, r)
      | None => None
      end
  end.

(** What follows an opening parenthesis: [?P<name>] or nothing. *)
Definition parse_group_head (s : string) : option (option string * string) :=
  match s with
  | String "?" (String "P" (String "<" s')) =>
      match parse_name s' with
      | Some (n, r) => Some (Some n, r)
      | None => None
      end
  | String "?" _ => None
  | _ => Some (None, s)
  end.

(** A sequence of nodes, up to the end of the text or, inside a group, up
    to its closing parenthesis.  Syntax outside the subset ([*], [|], a
    quantified group, ...) does not compile. *)
Fixpoint parse_seq (fuel : nat) (in_group : bool) (s : string)
  : option (list node * string) :=
  match fuel with
  | O => None
  | S fuel' =>
      match s with
      | EmptyString => if in_group then None else Some ([], "")
      | String ")" s' => if in_group then Some ([], s') else None
      | String "(" s' =>
          match parse_group_head s' with
          | Some (name, s1) =>
              match parse_seq fuel' true s1 with
              | Some (body, s2) =>
                  match parse_quant s2 with
                  | (Once, _) =>
                      match parse_seq fuel' in_group s2 with
                      | Some (ns, r) => Some (NGroup name body :: ns, r)
                      | None => None
                      end
                  | _ => None
                  end
              | None => None
              end
          | None => None
          end
      | String "$" s' =>
          match parse_seq fuel' in_group s' with
          | Some (ns, r) => Some (NEnd :: ns, r)
          | None => None
          end
      | _ =>
          match parse_class s with
          | Some (k, s1) =>
              let (q, s2) := parse_quant s1 in
              match parse_seq fuel' in_group s2 with
              | Some (ns, r) => Some (NChars k q :: ns, r)
              | None => None
              end
          | None => None
          end
      end
  end.

(** [re.compile(pattern)] *)
Definition compile (pattern : string) : option regex :=
  match parse_seq (S (String.length pattern)) false pattern with
  | Some (ns, _) => Some ns
  | None => None
  end.

(** *** Matching *)

(** A way to match: the groups closed so far, in the order they open, the
    text consumed and the text left. *)
Record state : Type := State {
  groups : list (option string * string);
  matched : string;
  rest : string
}.

Definition accepts (k : cclass) (c : ascii) : bool :=
  match k with
  | Chr a => Ascii.eqb a c
  | NotIn cs => negb (existsb (Ascii.eqb c) cs)
  | Digit => is_digit c
  end.

Definition chars_once (k : cclass) (s : string) : list (string * string) :=
  match s with
  | String c s' => if accepts k c then [(String c "", s')] else []
  | EmptyString => []
  end.

(** [k+] is greedy: the longest run is tried first, then the shorter ones. *)
Fixpoint chars_plus (k : cclass) (s : string) : list (string * string) :=
  match s with
  | String c s' =>
      if accepts k c
      then map (fun m => (String c (fst m), snd m)) (chars_plus k s')
           ++ [(String c "", s')]
      else []
  | EmptyString => []
  end.

Definition chars (k : cclass) (q : quant) (s : string)
  : list (string * string) :=
  match q with
  | Once => chars_once k s
  | Optional => chars_once k s ++ [("", s)]
  | OneOrMore => chars_plus k s
  end.

(** [$] matches at the end of the text and just before a line feed that
    ends the text. *)
Definition at_end (s : string) : bool :=
  match s with
  | EmptyString => true
  | String c s' =>
      Ascii.eqb c LF && match s' with EmptyString => true | _ => false end
  end.

(** A node followed by the continuation [k] of its sequence. *)
Definition then_ (m1 : state) (ms : list state) : list state :=
  map (fun m2 => State (groups m1 ++ groups m2)
                       (matched m1 ++ matched m2) (rest m2)) ms.

(** All the ways to match a node at the head of [s], in the order a
    backtracking matcher tries them. *)
Fixpoint match_node (n : node) (s : string) : list state :=
  match n with
  | NChars k q => map (fun m => State [] (fst m) (snd m)) (chars k q s)
  | NEnd => if at_end s then [State [] "" s] else []
  | NGroup name body =>
      map (fun m => State ((name, matched m) :: groups m) (matched m) (rest m))
        ((fix match_body (ns : list node) (s : string) : list state :=
            match ns with
            | [] => [State [] "" s]
            | n :: ns' =>
                flat_map (fun m1 => then_ m1 (match_body ns' (rest m1)))
                         (match_node n s)
            end) body s)
  end.

Fixpoint match_seq (ns : list node) (s : string) : list state :=
  match ns with
  | [] => [State [] "" s]
  | n :: ns' =>
      flat_map (fun m1 => then_ m1 (match_seq ns' (rest m1))) (match_node n s)
  end.

(** [regex.match(s)]: the first way to match at the start of [s]. *)
Definition match_ (r : regex) (s : string) : option state :=
  hd_error (match_seq r s).

(** [regex.search(s)]: the first match at the leftmost position that has
    one. *)
Fixpoint search (r : regex) (s : string) : option state :=
  match match_ r s with
  | Some m => Some m
  | None =>
      match s with
      | EmptyString => None
      | String _ s' => search r s'
      end
  end.

(** [m.group(i)], for [i >= 1]. *)
Definition group (m : state) (i : nat) : option string :=
  option_map snd (nth_error (groups m) (pred i)).

End Re.

Import Py.

(** ** The collaborators of the handlers *)

(** Modelled from the spec: [utils.machine_resolver.Machine] is not among the
    sources.  The accessors are the ones the handlers call; the key table is
    an ordered mapping from key name to a mapping from format name to key
    material. *)
Record Machine : Type := {
  get_instance_id : string;
  get_hostname : string;
  get_local_hostname : string;
  get_instance_type : string;
  get_local_ipv4 : string;
  get_public_ipv4 : string;
  get_placement_availability_zone : string;
  get_userdata : string;
  get_keys : dict (dict string)
}.

(** Modelled from the spec: the resolver ([utils.machine_resolver], not among
    the sources) takes a source address and returns either a Machine record
    or an absence indicator; [None] is any returned value that is not an
    instance of [Machine]. *)
Definition MachineResolver : Type := string -> option Machine.

(** The handler classes of the module. *)
Inductive handler : Type :=
| ApiRootHandler
| NullHandler
| ApiVersionRootHandler
| MetadataHandler
| InstanceIdHandler
| InstanceHostnameHandler
| InstanceLocalHostnameHandler
| InstanceTypeHandler
| LocalIpv4Handler
| PublicIpv4Handler
| PlacementAvailabilityZoneHandler
| UserDataHandler
| PublicKeysHandler.

(** ** Tornado: URL specs, the application, the request handler *)

(** [URLSpec(pattern, handler_class)]: [regex] is the compiled pattern and
    [regex_pattern] its text, [urlspec.regex.pattern]. *)
Record URLSpec : Type := {
  regex_pattern : string;
  regex : Re.regex;
  handler_class : handler
}.

(** The constructor appends [$] to a pattern that does not end with one and
    compiles it. *)
Definition URLSpec_init (pattern : string) (h : handler) : option URLSpec :=
  let pattern : string :=
    if endswith pattern "$" then pattern else (pattern ++ "$")%string in
  match Re.compile pattern with
  | Some r => Some {| regex_pattern := pattern; regex := r; handler_class := h |}
  | None => None
  end.

(** [Application(routes, machine_resolver=...)]: [handlers] is
    [application.handlers[0][1]], the URL specs in registration order. *)
Record Application : Type := {
  handlers : list URLSpec;
  machine_resolver : MachineResolver
}.

Fixpoint add_handlers (routes : list (string * handler)) : option (list URLSpec) :=
  match routes with
  | [] => Some []
  | (pattern, h) :: rest =>
      match URLSpec_init pattern h, add_handlers rest with
      | Some spec, Some specs => Some (spec :: specs)
      | _, _ => None
      end
  end.

(** What the handlers read of a request: the address of the caller and the
    path. *)
Record HTTPRequest : Type := {
  remote_ip : string;
  path : string
}.

(** What a handler changes while it runs: [self.request.machine] ([None]
    until it holds a [Machine]) and the chunks passed to [self.write]. *)
Record HandlerState : Type := {
  request_machine : option Machine;
  write_buffer : list string
}.

Definition initial : HandlerState :=
  {| request_machine := None; write_buffer := [] |}.

Inductive result (A : Type) : Type :=
| Normal (a : A)
| Raise (e : exn).
Arguments Normal {A} a.
Arguments Raise {A} e.

(** A method of a handler: it runs on the state and returns or raises. *)
Definition M (A : Type) : Type := HandlerState -> result A * HandlerState.

Definition ret {A} (a : A) : M A := fun st => (Normal a, st).

Definition raise {A} (e : exn) : M A := fun st => (Raise e, st).

Definition bind {A B} (c : M A) (k : A -> M B) : M B :=
  fun st =>
    match c st with
    | (Normal a, st') => k a st'
    | (Raise e, st') => (Raise e, st')
    end.

Notation "x <- c ;; k" := (bind c (fun x => k))
  (at level 61, c at next level, right associativity).
Notation "c ;;; k" := (bind c (fun _ => k))
  (at level 61, right associativity).

(** [self.write(chunk)] *)
Definition write (chunk : string) : M unit :=
  fun st => (Normal tt, {| request_machine := request_machine st;
                           write_buffer := write_buffer st ++ [chunk] |}).

(** [self.request.machine], read to call one of its accessors. *)
Definition the_machine : M Machine :=
  fun st =>
    match request_machine st with
    | Some m => (Normal m, st)
    | None => (Raise AttributeError, st)
    end.

(** A [for] loop that threads its local variable [acc]. *)
Fixpoint for_each {A S} (items : list A) (acc : S) (body : S -> A -> M S) : M S :=
  match items with
  | [] => ret acc
  | x :: rest => acc' <- body acc x ;; for_each rest acc' body
  end.

(** [re.search(pattern, s)]; a pattern that does not compile raises. *)
Definition re_search (pattern s : string) : M (option Re.state) :=
  match Re.compile pattern with
  | Some r => ret (Re.search r s)
  | None => raise ReError
  end.

(** ** The handlers *)

(** [ApiBaseHandler.prepare]: the resolver, a setting the application is
    built with, is asked for the machine of the caller's address; the answer
    is stored on the request and asserted to be a [Machine]. *)
Definition prepare (app : Application) (req : HTTPRequest) : M unit :=
  fun st =>
    let machine := machine_resolver app (remote_ip req) in
    let st' := {| request_machine := machine; write_buffer := write_buffer st |} in
    match machine with
    | Some _ => (Normal tt, st')
    | None => (Raise AssertionError, st')
    end.

Definition NullHandler_get : M unit := ret tt.

Definition versions : list string :=
  ["1.0"; "2007-01-19"; "2007-03-01"; "2007-08-29"; "2007-10-10"; "2007-12-15";
   "2008-02-01"; "2008-09-01"; "2009-04-04"; "2011-01-01"; "2011-05-01";
   "2012-01-12"; "latest"].

Definition ApiRootHandler_get : M unit := write (join nl versions).

Definition apis : list string := ["meta-data"; "user-data"].

Definition ApiVersionRootHandler_get : M unit := write (join nl apis).

Definition listing_pattern : string := "/meta-data/([^/]+/?)\??\$$".

(** The body of the loop of [MetadataHandler.get]. *)
Definition MetadataHandler_step (urls : list string) (urlspec : URLSpec)
  : M (list string) :=
  if contains "/meta-data/" (regex_pattern urlspec)
     && negb (endswith (regex_pattern urlspec) "/meta-data/$")
  then
    mt <- re_search listing_pattern (regex_pattern urlspec) ;;
    match mt with
    | Some m =>
        match Re.group m 1 with
        | Some leaf => ret (urls ++ [leaf])
        | None => raise IndexError
        end
    | None => ret urls
    end
  else ret urls.

Definition MetadataHandler_get (app : Application) : M unit :=
  urls <- for_each (handlers app) [] MetadataHandler_step ;;
  write (join nl urls).

Definition InstanceIdHandler_get : M unit :=
  m <- the_machine ;; write (get_instance_id m).

Definition InstanceHostnameHandler_get : M unit :=
  m <- the_machine ;; write (get_hostname m).

Definition InstanceLocalHostnameHandler_get : M unit :=
  m <- the_machine ;; write (get_local_hostname m).

Definition InstanceTypeHandler_get : M unit :=
  m <- the_machine ;; write (get_instance_type m).

Definition LocalIpv4Handler_get : M unit :=
  m <- the_machine ;; write (get_local_ipv4 m).

Definition PublicIpv4Handler_get : M unit :=
  m <- the_machine ;; write (get_public_ipv4 m).

Definition PlacementAvailabilityZoneHandler_get (what : option string) : M unit :=
  match what with
  | Some "availability-zone" =>
      m <- the_machine ;; write (get_placement_availability_zone m)
  | _ => write "availability-zone"
  end.

Definition UserDataHandler_get : M unit :=
  m <- the_machine ;; write (get_userdata m).

(** [items[i]] *)
Definition list_index {A} (items : list A) (i : nat) : M A :=
  match nth_error items i with
  | Some x => ret x
  | None => raise IndexError
  end.

(** [d[k]] *)
Definition dict_index {V} (d : dict V) (k : string) : M V :=
  match getitem d k with
  | Some v => ret v
  | None => raise (KeyError k)
  end.

Definition PublicKeysHandler_get (number key_format : option string) : M unit :=
  number <- match number with
            | Some text =>
                match int text with
                | Some n => ret (Some n)
                | None => raise ValueError
                end
            | None => ret None
            end ;;
  match number, key_format with
  | None, None =>
      m <- the_machine ;;
      write (join nl (map (fun ik => (percent_d (fst ik) ++ "=" ++ snd ik)%string)
                          (enumerate (keys (get_keys m)))))
  | Some n, None =>
      m <- the_machine ;;
      key <- list_index (values (get_keys m)) n ;;
      write (join nl (keys key))
  | Some n, Some key_format =>
      m <- the_machine ;;
      key <- list_index (values (get_keys m)) n ;;
      material <- dict_index key key_format ;;
      write material
  | None, Some _ =>
      m <- the_machine ;;
      raise TypeError
  end.

(** The parameters of [get] after [self]; each defaults to [None]. *)
Definition parameters (h : handler) : list string :=
  match h with
  | PlacementAvailabilityZoneHandler => ["what"]
  | PublicKeysHandler => ["number"; "key_format"]
  | _ => []
  end.

(** Binding positional and keyword arguments to the parameters of a call. *)
Fixpoint bind_positional (params args : list string)
  : option (list (string * option string)) :=
  match args, params with
  | [], _ => Some (map (fun p => (p, None)) params)
  | _ :: _, [] => None
  | a :: args', p :: params' =>
      option_map (cons (p, Some a)) (bind_positional params' args')
  end.

Fixpoint bind_keyword (frame : list (string * option string)) (k v : string)
  : option (list (string * option string)) :=
  match frame with
  | [] => None
  | (p, x) :: frame' =>
      if String.eqb p k
      then match x with
           | None => Some ((p, Some v) :: frame')
           | Some _ => None
           end
      else option_map (cons (p, x)) (bind_keyword frame' k v)
  end.

Definition bind_arguments (params args : list string)
                          (kwargs : list (string * string))
  : option (list (option string)) :=
  option_map (map snd)
    (fold_left (fun frame kv =>
                  match frame with
                  | Some f => bind_keyword f (fst kv) (snd kv)
                  | None => None
                  end)
               kwargs (bind_positional params args)).

(** The call of [get], with the positional and keyword arguments of the
    match, on a handler of class [h]. *)
Definition get (h : handler) (app : Application)
               (args : list string) (kwargs : list (string * string)) : M unit :=
  match bind_arguments (parameters h) args kwargs with
  | None => raise TypeError
  | Some frame =>
      match h with
      | ApiRootHandler => ApiRootHandler_get
      | NullHandler => NullHandler_get
      | ApiVersionRootHandler => ApiVersionRootHandler_get
      | MetadataHandler => MetadataHandler_get app
      | InstanceIdHandler => InstanceIdHandler_get
      | InstanceHostnameHandler => InstanceHostnameHandler_get
      | InstanceLocalHostnameHandler => InstanceLocalHostnameHandler_get
      | InstanceTypeHandler => InstanceTypeHandler_get
      | LocalIpv4Handler => LocalIpv4Handler_get
      | PublicIpv4Handler => PublicIpv4Handler_get
      | PlacementAvailabilityZoneHandler =>
          PlacementAvailabilityZoneHandler_get (nth 0 frame None)
      | UserDataHandler => UserDataHandler_get
      | PublicKeysHandler =>
          PublicKeysHandler_get (nth 0 frame None) (nth 1 frame None)
      end
  end.

Definition routes : list (string * handler) :=
  [("/", ApiRootHandler);
   ("/[^\/]+", NullHandler);
   ("/[^\/]+/", ApiVersionRootHandler);
   ("/[^\/]+/meta-data", NullHandler);
   ("/[^\/]+/meta-data/", MetadataHandler);
   ("/[^\/]+/meta-data/instance-id", InstanceIdHandler);
   ("/[^\/]+/meta-data/instance-type", InstanceTypeHandler);
   ("/[^\/]+/meta-data/hostname", InstanceHostnameHandler);
   ("/[^\/]+/meta-data/local-hostname", InstanceLocalHostnameHandler);
   ("/[^\/]+/meta-data/local-ipv4", LocalIpv4Handler);
   ("/[^\/]+/meta-data/public-ipv4", PublicIpv4Handler);
   ("/[^\/]+/meta-data/placement/?", PlacementAvailabilityZoneHandler);
   ("/[^\/]+/meta-data/placement/(availability-zone)", PlacementAvailabilityZoneHandler);
   ("/[^\/]+/meta-data/public-keys/?", PublicKeysHandler);
   ("/[^\/]+/meta-data/public-keys/(?P<number>\d+)/?", PublicKeysHandler);
   ("/[^\/]+/meta-data/public-keys/(?P<number>\d+)/(?P<key_format>[^/]+)", PublicKeysHandler);
   ("/[^\/]+/user-data/?", UserDataHandler)].

(** The URL specs that [Application(routes, ...)] builds from the table. *)
Definition urlspecs : list URLSpec :=
  Eval vm_compute in
    match add_handlers routes with
    | Some specs => specs
    | None => []
    end.

Definition application (resolver : MachineResolver) : Application :=
  {| handlers := urlspecs; machine_resolver := resolver |}.

(** ** Tornado: serving a request *)

(** How a request ends: the handler finishes and its buffer is the body of a
    200 response; an exception that is not an [HTTPError] leaves the handler
    and Tornado answers 500; no pattern matches the path and Tornado answers
    404. *)
Inductive outcome : Type :=
| Finished (body : string)
| Uncaught (e : exn)
| NoRoute.

Definition status_code (o : outcome) : nat :=
  match o with
  | Finished _ => 200
  | Uncaught _ => 500
  | NoRoute => 404
  end.

(** The end of a request: [finish] sends the chunks written so far; an
    exception that left the handler is reported instead. *)
Definition finish (r : result unit * HandlerState) : outcome :=
  match r with
  | (Normal _, st) => Finished (String.concat "" (write_buffer st))
  | (Raise e, _) => Uncaught e
  end.

Section Serving.

(** The decoding Tornado applies to a captured group before it passes it
    to [get]: percent-decoding, and in some releases [+] to a space. *)
Variable url_unescape : string -> string.

(** The arguments of [get] from the groups of a match: none for a pattern
    without groups, the named groups as keywords when there is a named
    group, all groups by position otherwise.  (No group of the supported
    patterns is optional, so a match holds every group of its pattern.) *)
Definition arguments (groups : list (option string * string))
  : list string * list (string * string) :=
  if existsb (fun g => match fst g with Some _ => true | None => false end)
             groups
  then ([], flat_map (fun g => match fst g with
                               | Some name => [(name, url_unescape (snd g))]
                               | None => []
                               end) groups)
  else (map (fun g => url_unescape (snd g)) groups, []).

(** The handler class and the arguments of the first URL spec, in
    registration order, whose pattern matches the path. *)
Fixpoint find_handler (specs : list URLSpec) (path : string)
  : option (handler * (list string * list (string * string))) :=
  match specs with
  | [] => None
  | spec :: rest =>
      match Re.match_ (regex spec) path with
      | Some m => Some (handler_class spec, arguments (Re.groups m))
      | None => find_handler rest path
      end
  end.

(** [RequestHandler._execute]: [prepare], then [get], then [finish]. *)
Definition execute (app : Application) (req : HTTPRequest) (h : handler)
                   (args : list string) (kwargs : list (string * string))
  : outcome :=
  finish ((prepare app req ;;; get h app args kwargs) initial).

(** [Application.__call__] *)
Definition serve (app : Application) (req : HTTPRequest) : outcome :=
  match find_handler (handlers app) (path req) with
  | Some (h, (args, kwargs)) => execute app req h args kwargs
  | None => NoRoute
  end.

End Serving.

(** [GET path] from the address [ip]. *)
Definition GET (ip path : string) : HTTPRequest :=
  {| remote_ip := ip; path := path |}.

(** ** Well-formed path components *)

Fixpoint all_chars (p : ascii -> bool) (s : string) : bool :=
  match s with
  | EmptyString => true
  | String c s' => p c && all_chars p s'
  end.

Definition nonempty (s : string) : bool :=
  match s with
  | EmptyString => false
  | String _ _ => true
  end.

(** A path segment: a non-empty run of characters other than the slash and
    the line feed, which no request target of HTTP holds. *)
Definition segment_char (c : ascii) : bool :=
  negb (Ascii.eqb c "/") && negb (Ascii.eqb c LF).

Definition is_segment (s : string) : bool :=
  nonempty s && all_chars segment_char s.

(** A non-empty run of decimal digits, what [\d+] matches. *)
Definition is_digits (s : string) : bool :=
  nonempty s && all_chars is_digit s.

(** Text that holds nothing to decode: no [%] and no [+]. *)
Definition plain_char (c : ascii) : bool :=
  negb (Ascii.eqb c "%") && negb (Ascii.eqb c "+").

Definition plain (s : string) : bool := all_chars plain_char s.

(** ** The listing as a function of the route table *)

(** The line that one URL spec adds to the listing of [MetadataHandler.get],
    if any: the condition of the loop body, the search and its group. *)
Definition leaf (pattern : string) : option string :=
  if contains "/meta-data/" pattern && negb (endswith pattern "/meta-data/$")
  then match Re.compile listing_pattern with
       | Some r =>
           match Re.search r pattern with
           | Some m => Re.group m 1
           | None => None
           end
       | None => None
       end
  else None.

Definition leaves (specs : list URLSpec) : list string :=
  flat_map (fun spec => match leaf (regex_pattern spec) with
                        | Some name => [name]
                        | None => []
                        end) specs.

(** The condition of the loop body alone: the pattern lies under the
    metadata category and is not the listing route itself. *)
Definition under_metadata (spec : URLSpec) : bool :=
  contains "/meta-data/" (regex_pattern spec)
  && negb (endswith (regex_pattern spec) "/meta-data/$").

(** ** A decoder *)

Definition hex_value (c : ascii) : option nat :=
  let n := nat_of_ascii c in
  if (48 <=? n) && (n <=? 57) then Some (n - 48)
  else if (65 <=? n) && (n <=? 70) then Some (n - 55)
  else if (97 <=? n) && (n <=? 102) then Some (n - 87)
  else None.

(** [urllib.unquote] of Python 2, the decoding of the Tornado releases that
    leave [+] alone: [%xy] with two hexadecimal digits is the character of
    that code, any other [%] stays. *)
Fixpoint unquote (s : string) : string :=
  match s with
  | EmptyString => EmptyString
  | String c s' =>
      match s' with
      | String a (String b r) =>
          match Ascii.eqb c "%", hex_value a, hex_value b with
          | true, Some x, Some y => String (ascii_of_nat (16 * x + y)) (unquote r)
          | _, _, _ => String c (unquote s')
          end
      | _ => String c (unquote s')
      end
  end.

(** ** The example of the specification *)

(** A machine with the single key [id_rsa]. *)
Definition example_machine : Machine :=
  {| get_instance_id := "i-0a1b2c3d";
     get_hostname := "guest.example.org";
     get_local_hostname := "guest";
     get_instance_type := "m1.small";
     get_local_ipv4 := "192.168.122.10";
     get_public_ipv4 := "";
     get_placement_availability_zone := "zone-a";
     get_userdata := "#!/bin/sh";
     get_keys := [("id_rsa", [("openssh-key", "AAAA..."); ("fingerprint", "12:34")])] |}.

(** A resolver that knows one address. *)
Definition example_resolver : MachineResolver :=
  fun ip => if String.eqb ip "192.168.122.10" then Some example_machine else None.

(** ** Order in the route table *)

Definition catch_all_route : string * handler :=
  ("/[^\/]+/meta-data/placement/?", PlacementAvailabilityZoneHandler).

Definition literal_route : string * handler :=
  ("/[^\/]+/meta-data/placement/(availability-zone)",
   PlacementAvailabilityZoneHandler).

(** [x] is registered before [y]. *)
Definition precedes {A} (x y : A) (l : list A) : Prop :=
  exists i j, i < j /\ nth_error l i = Some x /\ nth_error l j = Some y.

(** The paths below [/<version>/] of the metadata and user-data routes that
    take no parameter. *)
Definition data_paths : list string :=
  ["meta-data/"; "meta-data/instance-id"; "meta-data/instance-type";
   "meta-data/hostname"; "meta-data/local-hostname"; "meta-data/local-ipv4";
   "meta-data/public-ipv4"; "meta-data/placement"; "meta-data/placement/";
   "meta-data/placement/availability-zone"; "meta-data/public-keys";
   "meta-data/public-keys/"; "meta-data/public-keys/0";
   "meta-data/public-keys/0/"; "meta-data/public-keys/0/openssh-key";
   "user-data"; "user-data/"].

(** ** Notions for the proofs about matching and dispatch *)

(** The text starts with a character of [P]. *)
Definition starts (P : ascii -> bool) (s : string) : Prop :=
  match s with
  | String c _ => P c = true
  | EmptyString => False
  end.

(** The text does not start with a character that [k] accepts. *)
Definition stops (k : Re.cclass) (s : string) : Prop :=
  match s with
  | String c _ => Re.accepts k c = false
  | EmptyString => True
  end.

(** The groups of the first way to match, if there is one. *)
Definition first_groups (ns : Re.regex) (s : string)
  : option (list (option string * string)) :=
  option_map Re.groups (Re.match_ ns s).

(** No way to match a text that starts with a character of [P]. *)
Definition dead (P : ascii -> bool) (ns : Re.regex) : Prop :=
  forall c y, P c = true -> Re.match_seq ns (String c y) = [].

Definition with_regex (spec : URLSpec) (r : Re.regex) : URLSpec :=
  {| regex_pattern := regex_pattern spec; regex := r;
     handler_class := handler_class spec |}.

(** The specs that can still match once the path has shown its first
    character [c], each with what is left of its pattern. *)
Fixpoint advance (c : ascii) (specs : list URLSpec) : option (list URLSpec) :=
  match specs with
  | [] => Some []
  | spec :: rest =>
      match regex spec with
      | Re.NChars (Re.Chr a) Re.Once :: ns =>
          match advance c rest with
          | Some rest' =>
              Some (if Ascii.eqb a c then with_regex spec ns :: rest' else rest')
          | None => None
          end
      | Re.NEnd :: _ => if Ascii.eqb c LF then None else advance c rest
      | _ => None
      end
  end.

Fixpoint advance_all (lit : string) (specs : list URLSpec)
  : option (list URLSpec) :=
  match lit with
  | EmptyString => Some specs
  | String c lit' =>
      match advance c specs with
      | Some specs' => advance_all lit' specs'
      | None => None
      end
  end.

Definition is_not_slash_plus (n : Re.node) : bool :=
  match n with
  | Re.NChars (Re.NotIn [c]) Re.OneOrMore => Ascii.eqb c "/"
  | _ => false
  end.

(** The specs that can still match once the path has shown a version token
    and the slash after it. *)
Fixpoint skip_version (specs : list URLSpec) : option (list URLSpec) :=
  match specs with
  | [] => Some []
  | spec :: rest =>
      match regex spec with
      | Re.NEnd :: _ => skip_version rest
      | n :: Re.NEnd :: _ =>
          if is_not_slash_plus n then skip_version rest else None
      | n :: Re.NChars (Re.Chr a) Re.Once :: ns =>
          if is_not_slash_plus n && Ascii.eqb a "/"
          then match skip_version rest with
               | Some rest' => Some (with_regex spec ns :: rest')
               | None => None
               end
          else None
      | _ => None
      end
  end.

(** The URL specs after the slash that opens every path. *)
Definition after_slash : list URLSpec :=
  Eval vm_compute in
    match advance "/" urlspecs with Some specs => specs | None => [] end.

(** The URL specs below [/<version>/]. *)
Definition versioned : list URLSpec :=
  Eval vm_compute in
    match skip_version after_slash with Some specs => specs | None => [] end.

(** The URL specs below [/<version>/meta-data/public-keys]. *)
Definition public_keys_specs : list URLSpec :=
  Eval vm_compute in
    match advance_all "meta-data/public-keys" versioned with
    | Some specs => specs
    | None => []
    end.

(** ** The leaves of the metadata category *)

(** Each leaf with the accessor its handler reads. *)
Definition leaf_accessors : list (string * (Machine -> string)) :=
  [("instance-id", get_instance_id);
   ("instance-type", get_instance_type);
   ("hostname", get_hostname);
   ("local-hostname", get_local_hostname);
   ("local-ipv4", get_local_ipv4);
   ("public-ipv4", get_public_ipv4)].

(** The pattern of the URL spec asks for a version token after the slash
    that opens the path, or for the end of the path. *)
Definition needs_token (spec : URLSpec) : bool :=
  match regex spec with
  | Re.NEnd :: _ => true
  | n :: _ => is_not_slash_plus n
  | [] => false
  end.

(** ** The groups of a pattern *)

(** No node of the sequence is a group. *)
Definition no_groups (ns : Re.regex) : bool :=
  forallb (fun n => match n with Re.NGroup _ _ => false | _ => true end) ns.

(** No group of the sequence holds a group. *)
Definition flat (ns : Re.regex) : bool :=
  forallb (fun n => match n with
                    | Re.NGroup _ body => no_groups body
                    | _ => true
                    end) ns.

(** The groups of the sequence, each with its name and body. *)
Definition top_groups (ns : Re.regex) : list (option string * Re.regex) :=
  flat_map (fun n => match n with
                     | Re.NGroup name body => [(name, body)]
                     | _ => []
                     end) ns.

(** The group [g] of a match comes from the group [tg] of the pattern: it
    has its name, and its text is what the body matched somewhere. *)
Definition group_of (g : option string * string)
                    (tg : option string * Re.regex) : Prop :=
  fst g = fst tg
  /\ exists s m, In m (Re.match_seq (snd tg) s) /\ Re.matched m = snd g.

Definition is_digit_plus (body : Re.regex) : bool :=
  match body with
  | [Re.NChars Re.Digit Re.OneOrMore] => true
  | _ => false
  end.

(** The groups of the pattern of a URL spec fit the parameters of [get] in
    its handler class: none for the handlers without parameters, at most one
    unnamed group for the placement handler, and for the public-keys handler
    nothing, [number] or [number] and [key_format], with [number] a run of
    digits. *)
Definition fits (spec : URLSpec) : bool :=
  flat (regex spec)
  && match handler_class spec, top_groups (regex spec) with
     | PlacementAvailabilityZoneHandler, [] => true
     | PlacementAvailabilityZoneHandler, [(None, _)] => true
     | PlacementAvailabilityZoneHandler, _ => false
     | PublicKeysHandler, [] => true
     | PublicKeysHandler, [(Some n1, b1)] =>
         String.eqb n1 "number" && is_digit_plus b1
     | PublicKeysHandler, [(Some n1, b1); (Some n2, _)] =>
         String.eqb n1 "number" && is_digit_plus b1
         && String.eqb n2 "key_format"
     | PublicKeysHandler, _ => false
     | _, [] => true
     | _, _ => false
     end.

(** The ways a request whose address resolves can end once a route took it:
    a finished response, or the [IndexError] and [KeyError] of the key
    lookups. *)
Definition key_faults_only (o : outcome) : Prop :=
  match o with
  | Finished _ => True
  | Uncaught IndexError => True
  | Uncaught (KeyError _) => True
  | _ => False
  end.


(** * Properties *)

(** ** Characters and strings *)

Lemma digit_is_segment_char (c : ascii) :
  is_digit c = true -> segment_char c = true.
Proof.
  unfold is_digit, segment_char. intros H.
  apply andb_true_iff in H as [H1 H2].
  apply Nat.leb_le in H1.
  destruct (Ascii.eqb_spec c "/") as [->|_]; [vm_compute in H1; lia|].
  destruct (Ascii.eqb_spec c LF) as [->|_]; [vm_compute in H1; lia|].
  reflexivity.
Qed.

Lemma digit_is_plain_char (c : ascii) :
  is_digit c = true -> plain_char c = true.
Proof.
  unfold is_digit, plain_char. intros H.
  apply andb_true_iff in H as [H1 H2].
  apply Nat.leb_le in H1.
  destruct (Ascii.eqb_spec c "%") as [->|_]; [vm_compute in H1; lia|].
  destruct (Ascii.eqb_spec c "+") as [->|_]; [vm_compute in H1; lia|].
  reflexivity.
Qed.

Lemma all_chars_impl (p q : ascii -> bool) (s : string) :
  (forall c, p c = true -> q c = true) ->
  all_chars p s = true -> all_chars q s = true.
Proof.
  intros Hpq. induction s as [|c s IH]; simpl; [reflexivity|].
  intros H. apply andb_true_iff in H as [Hc Hs].
  rewrite (Hpq c Hc), (IH Hs). reflexivity.
Qed.

Lemma digits_plain (d : string) : is_digits d = true -> plain d = true.
Proof.
  unfold is_digits, plain. intros H.
  apply andb_true_iff in H as [_ H].
  exact (all_chars_impl _ _ d digit_is_plain_char H).
Qed.

Lemma digits_int (d : string) :
  is_digits d = true -> exists n, int d = Some n.
Proof.
  unfold is_digits. intros H. apply andb_true_iff in H as [Hne H].
  assert (Hu : exists u, NilEmpty.uint_of_string d = Some u).
  { clear Hne. induction d as [|c d IH]; simpl in *.
    - eexists; reflexivity.
    - apply andb_true_iff in H as [Hc Hd].
      destruct (IH Hd) as [u Hu]. rewrite Hu.
      unfold is_digit in Hc. apply andb_true_iff in Hc as [H1 H2].
      apply Nat.leb_le in H1, H2.
      assert (Hn : c = ascii_of_nat (nat_of_ascii c))
        by (symmetry; apply ascii_nat_embedding).
      rewrite Hn.
      assert (Hcases : nat_of_ascii c = 48 \/ nat_of_ascii c = 49 \/
                       nat_of_ascii c = 50 \/ nat_of_ascii c = 51 \/
                       nat_of_ascii c = 52 \/ nat_of_ascii c = 53 \/
                       nat_of_ascii c = 54 \/ nat_of_ascii c = 55 \/
                       nat_of_ascii c = 56 \/ nat_of_ascii c = 57) by lia.
      repeat (destruct Hcases as [-> | Hcases]; [eexists; reflexivity|]).
      rewrite Hcases. eexists; reflexivity. }
  destruct Hu as [u Hu]. destruct d; [discriminate|].
  unfold int. rewrite Hu. eexists; reflexivity.
Qed.

Lemma unquote_plain (s : string) : plain s = true -> unquote s = s.
Proof.
  unfold plain.
  assert (H : forall n s, String.length s <= n ->
                          all_chars plain_char s = true -> unquote s = s).
  { clear s. induction n as [|n IH]; intros s Hlen Hs.
    - destruct s; [reflexivity | simpl in Hlen; lia].
    - destruct s as [|c s]; [reflexivity|].
      simpl in Hs. apply andb_true_iff in Hs as [Hc Hs].
      assert (Hne : Ascii.eqb c "%" = false).
      { unfold plain_char in Hc. apply andb_true_iff in Hc as [Hc _].
        apply negb_true_iff in Hc. exact Hc. }
      simpl in Hlen.
      cbn [unquote]. rewrite Hne.
      destruct s as [|a [|b r]].
      + reflexivity.
      + reflexivity.
      + f_equal. apply IH; [simpl in *; lia | exact Hs]. }
  apply (H (String.length s)). lia.
Qed.

(** ** Matching a run of characters *)

Lemma chars_plus_stops (k : Re.cclass) (r : string) :
  stops k r -> Re.chars_plus k r = [].
Proof.
  destruct r as [|c r]; simpl; [reflexivity|]. intros ->. reflexivity.
Qed.

Lemma starts_app (P : ascii -> bool) (x r : string) :
  nonempty x = true -> all_chars P x = true -> starts P (x ++ r).
Proof.
  destruct x as [|c x]; simpl; [discriminate|].
  intros _ H. apply andb_true_iff in H as [H _]. exact H.
Qed.

(** On a run [x] of accepted characters that ends where [k] stops, [k+]
    first takes all of [x]; every other way leaves a character of the run. *)
Lemma chars_plus_run (k : Re.cclass) (P : ascii -> bool) (x r : string) :
  (forall c, P c = true -> Re.accepts k c = true) ->
  nonempty x = true -> all_chars P x = true -> stops k r ->
  exists alts,
    Re.chars_plus k (x ++ r) = (x, r) :: alts
    /\ Forall (fun a => starts P (snd a)) alts.
Proof.
  intros HP Hne Hx Hr. induction x as [|c x IH]; [discriminate|].
  simpl in Hx. apply andb_true_iff in Hx as [Hc Hx].
  cbn [append Re.chars_plus]. rewrite (HP c Hc).
  destruct x as [|c' x].
  - cbn [append]. rewrite (chars_plus_stops k r Hr). exists []. split; constructor.
  - destruct (IH eq_refl Hx) as [alts [E F]]. rewrite E.
    exists (map (fun m => (String c (fst m), snd m)) alts
            ++ [(String c "", (String c' x ++ r)%string)]).
    split; [reflexivity|].
    apply Forall_app. split.
    + apply Forall_map. exact F.
    + constructor; [|constructor]. exact (starts_app P (String c' x) r eq_refl Hx).
Qed.

Lemma match_plus_run (k : Re.cclass) (P : ascii -> bool) (x r : string) :
  (forall c, P c = true -> Re.accepts k c = true) ->
  nonempty x = true -> all_chars P x = true -> stops k r ->
  exists alts,
    Re.match_node (Re.NChars k Re.OneOrMore) (x ++ r) = Re.State [] x r :: alts
    /\ Forall (fun m => starts P (Re.rest m)) alts.
Proof.
  intros HP Hne Hx Hr.
  destruct (chars_plus_run k P x r HP Hne Hx Hr) as [alts [E F]].
  exists (map (fun m => Re.State [] (fst m) (snd m)) alts).
  split.
  - cbn [Re.match_node Re.chars]. rewrite E. reflexivity.
  - apply Forall_map. exact F.
Qed.

Lemma append_empty (s : string) : (s ++ "")%string = s.
Proof. induction s as [|c s IH]; simpl; [|rewrite IH]; reflexivity. Qed.

Lemma match_group_body (name : option string) (body : Re.regex) (s : string) :
  Re.match_node (Re.NGroup name body) s
  = map (fun m => Re.State ((name, Re.matched m) :: Re.groups m)
                           (Re.matched m) (Re.rest m))
        (Re.match_seq body s).
Proof. reflexivity. Qed.

Lemma match_seq_single (n : Re.node) (s : string) :
  Re.match_seq [n] s
  = map (fun m => Re.State (Re.groups m ++ []) (Re.matched m ++ "") (Re.rest m))
        (Re.match_node n s).
Proof.
  cbn [Re.match_seq]. induction (Re.match_node n s) as [|m ms IH];
    [reflexivity|]. cbn [flat_map]. rewrite IH. reflexivity.
Qed.

Lemma match_group_plus_run (name : option string) (k : Re.cclass)
      (P : ascii -> bool) (x r : string) :
  (forall c, P c = true -> Re.accepts k c = true) ->
  nonempty x = true -> all_chars P x = true -> stops k r ->
  exists alts,
    Re.match_node (Re.NGroup name [Re.NChars k Re.OneOrMore]) (x ++ r)
    = Re.State [(name, x)] x r :: alts
    /\ Forall (fun m => starts P (Re.rest m)) alts.
Proof.
  intros HP Hne Hx Hr.
  destruct (match_plus_run k P x r HP Hne Hx Hr) as [alts [E F]].
  rewrite match_group_body, match_seq_single, E.
  cbn [map Re.groups Re.matched Re.rest app]. rewrite append_empty.
  eexists. split; [reflexivity|].
  apply Forall_map, Forall_map. exact F.
Qed.

(** ** Sequences *)

Lemma flat_map_dead {A B} (f : A -> list B) (l : list A) :
  Forall (fun a => f a = []) l -> flat_map f l = [].
Proof.
  induction 1 as [|a l Ha _ IH]; [reflexivity|].
  cbn [flat_map]. rewrite Ha, IH. reflexivity.
Qed.

(** When every other way to match the head dies in the tail, the sequence
    is decided by the first way. *)
Lemma match_seq_commit (P : ascii -> bool) (n : Re.node) (ns : Re.regex)
      (s : string) (m : Re.state) (alts : list Re.state) :
  Re.match_node n s = m :: alts ->
  Forall (fun a => starts P (Re.rest a)) alts ->
  dead P ns ->
  Re.match_seq (n :: ns) s = Re.then_ m (Re.match_seq ns (Re.rest m)).
Proof.
  intros E F D. cbn [Re.match_seq]. rewrite E. cbn [flat_map].
  rewrite flat_map_dead; [apply app_nil_r|].
  eapply Forall_impl; [|exact F]. intros a Ha. cbn beta in *.
  destruct (Re.rest a) as [|c y]; [destruct Ha|].
  rewrite (D c y Ha). reflexivity.
Qed.

Lemma first_groups_then (m : Re.state) (ms : list Re.state) :
  option_map Re.groups (hd_error (Re.then_ m ms))
  = option_map (app (Re.groups m)) (option_map Re.groups (hd_error ms)).
Proof. destruct ms; reflexivity. Qed.

Lemma first_groups_plus (P : ascii -> bool) (k : Re.cclass) (ns : Re.regex)
      (x r : string) :
  (forall c, P c = true -> Re.accepts k c = true) ->
  nonempty x = true -> all_chars P x = true -> stops k r -> dead P ns ->
  first_groups (Re.NChars k Re.OneOrMore :: ns) (x ++ r) = first_groups ns r.
Proof.
  intros HP Hne Hx Hr D.
  destruct (match_plus_run k P x r HP Hne Hx Hr) as [alts [E F]].
  unfold first_groups, Re.match_.
  rewrite (match_seq_commit P _ _ _ _ _ E F D), first_groups_then.
  cbn [Re.groups Re.rest]. destruct (hd_error _); reflexivity.
Qed.

Lemma first_groups_group_plus (P : ascii -> bool) (name : option string)
      (k : Re.cclass) (ns : Re.regex) (x r : string) :
  (forall c, P c = true -> Re.accepts k c = true) ->
  nonempty x = true -> all_chars P x = true -> stops k r -> dead P ns ->
  first_groups (Re.NGroup name [Re.NChars k Re.OneOrMore] :: ns) (x ++ r)
  = option_map (cons (name, x)) (first_groups ns r).
Proof.
  intros HP Hne Hx Hr D.
  destruct (match_group_plus_run name k P x r HP Hne Hx Hr) as [alts [E F]].
  unfold first_groups, Re.match_.
  rewrite (match_seq_commit P _ _ _ _ _ E F D), first_groups_then.
  cbn [Re.groups Re.rest]. destruct (hd_error _); reflexivity.
Qed.

Lemma first_groups_chr (a c : ascii) (ns : Re.regex) (t : string) :
  first_groups (Re.NChars (Re.Chr a) Re.Once :: ns) (String c t)
  = if Ascii.eqb a c then first_groups ns t else None.
Proof.
  unfold first_groups, Re.match_.
  cbn [Re.match_seq Re.match_node Re.chars Re.chars_once Re.accepts].
  destruct (Ascii.eqb a c); [|reflexivity].
  cbn [map flat_map fst snd Re.rest]. rewrite app_nil_r, first_groups_then.
  cbn [Re.groups]. destruct (hd_error _); reflexivity.
Qed.

Lemma first_groups_end (ns : Re.regex) (s : string) :
  first_groups (Re.NEnd :: ns) s
  = if Re.at_end s then first_groups ns s else None.
Proof.
  unfold first_groups, Re.match_. cbn [Re.match_seq Re.match_node].
  destruct (Re.at_end s); [|reflexivity].
  cbn [flat_map Re.rest]. rewrite app_nil_r, first_groups_then.
  cbn [Re.groups]. destruct (hd_error _); reflexivity.
Qed.

(** An optional character: with it first, then without it. *)
Lemma first_groups_opt (a c : ascii) (ns : Re.regex) (t : string) :
  first_groups (Re.NChars (Re.Chr a) Re.Optional :: ns) (String c t)
  = if Ascii.eqb a c
    then match first_groups ns t with
         | Some g => Some g
         | None => first_groups ns (String c t)
         end
    else first_groups ns (String c t).
Proof.
  unfold first_groups, Re.match_.
  cbn [Re.match_seq Re.match_node Re.chars Re.chars_once Re.accepts].
  destruct (Ascii.eqb a c).
  - cbn [app map flat_map fst snd Re.rest]. rewrite app_nil_r.
    unfold Re.then_ at 1 2. cbn [Re.groups Re.matched app].
    destruct (Re.match_seq ns t) as [|m1 ms1]; cbn [map app hd_error option_map].
    + destruct (Re.match_seq ns (String c t)); reflexivity.
    + reflexivity.
  - cbn [app map flat_map fst snd Re.rest]. rewrite app_nil_r, first_groups_then.
    cbn [Re.groups]. destruct (hd_error _); reflexivity.
Qed.

(** *** Tails that die *)

Lemma dead_chr (P : ascii -> bool) (a : ascii) (ns : Re.regex) :
  (forall c, P c = true -> Ascii.eqb a c = false) ->
  dead P (Re.NChars (Re.Chr a) Re.Once :: ns).
Proof.
  intros H c y Hc.
  cbn [Re.match_seq Re.match_node Re.chars Re.chars_once Re.accepts].
  rewrite (H c Hc). reflexivity.
Qed.

Lemma dead_end (P : ascii -> bool) (ns : Re.regex) :
  (forall c, P c = true -> Ascii.eqb c LF = false) ->
  dead P (Re.NEnd :: ns).
Proof.
  intros H c y Hc. cbn [Re.match_seq Re.match_node Re.at_end].
  rewrite (H c Hc). reflexivity.
Qed.

Lemma dead_opt (P : ascii -> bool) (a : ascii) (ns : Re.regex) :
  (forall c, P c = true -> Ascii.eqb a c = false) ->
  dead P ns ->
  dead P (Re.NChars (Re.Chr a) Re.Optional :: ns).
Proof.
  intros H D c y Hc.
  cbn [Re.match_seq Re.match_node Re.chars Re.chars_once Re.accepts].
  rewrite (H c Hc). cbn [app map flat_map fst snd Re.rest].
  rewrite (D c y Hc). reflexivity.
Qed.

Lemma segment_char_not_slash (c : ascii) :
  segment_char c = true -> Ascii.eqb "/" c = false.
Proof.
  unfold segment_char. intros H. apply andb_true_iff in H as [H _].
  apply negb_true_iff in H. rewrite Ascii.eqb_sym. exact H.
Qed.

Lemma segment_char_not_LF (c : ascii) :
  segment_char c = true -> Ascii.eqb c LF = false.
Proof.
  unfold segment_char. intros H. apply andb_true_iff in H as [_ H].
  apply negb_true_iff in H. exact H.
Qed.

Lemma segment_char_accepted (c : ascii) :
  segment_char c = true -> Re.accepts (Re.NotIn ["/"%char]) c = true.
Proof.
  unfold segment_char. intros H. apply andb_true_iff in H as [H _].
  cbn [Re.accepts existsb]. rewrite orb_false_r. exact H.
Qed.

(** ** Dispatch *)

Lemma add_handlers_routes : add_handlers routes = Some urlspecs.
Proof. vm_compute. reflexivity. Qed.

Lemma at_end_starts (P : ascii -> bool) (s : string) :
  (forall c, P c = true -> Ascii.eqb c LF = false) ->
  starts P s -> Re.at_end s = false.
Proof.
  intros H. destruct s as [|c s]; simpl; [intros []|].
  intros Hc. rewrite (H c Hc). reflexivity.
Qed.

Lemma segment_starts (v r : string) :
  is_segment v = true -> starts segment_char (v ++ r).
Proof.
  unfold is_segment. intros H. apply andb_true_iff in H as [Hne Hv].
  exact (starts_app segment_char v r Hne Hv).
Qed.

Lemma digits_start (d r : string) :
  is_digits d = true -> starts is_digit (d ++ r).
Proof.
  unfold is_digits. intros H. apply andb_true_iff in H as [Hne Hd].
  exact (starts_app is_digit d r Hne Hd).
Qed.

Lemma is_digit_not_LF (c : ascii) : is_digit c = true -> Ascii.eqb c LF = false.
Proof.
  intros H. exact (segment_char_not_LF c (digit_is_segment_char c H)).
Qed.

Lemma is_digit_not_slash (c : ascii) :
  is_digit c = true -> Ascii.eqb "/" c = false.
Proof.
  intros H. exact (segment_char_not_slash c (digit_is_segment_char c H)).
Qed.

Section Dispatch.

Variable url_unescape : string -> string.

Hypothesis url_unescape_plain :
  forall s, plain s = true -> url_unescape s = s.

Local Abbreviation find := (find_handler url_unescape).

Lemma find_handler_cons (spec : URLSpec) (rest : list URLSpec) (p : string) :
  find (spec :: rest) p
  = match first_groups (regex spec) p with
    | Some g => Some (handler_class spec, arguments url_unescape g)
    | None => find rest p
    end.
Proof.
  unfold first_groups. cbn [find_handler].
  destruct (Re.match_ (regex spec) p); reflexivity.
Qed.

Lemma advance_sound (c : ascii) (t : string) (specs specs' : list URLSpec) :
  advance c specs = Some specs' ->
  find specs (String c t) = find specs' t.
Proof.
  revert specs'. induction specs as [|spec rest IH]; intros specs' H.
  - injection H as <-. reflexivity.
  - cbn [advance] in H. rewrite find_handler_cons.
    destruct (regex spec) as [|[k q|name body|] ns] eqn:E; try discriminate.
    + destruct k as [a| |]; try discriminate.
      destruct q; try discriminate.
      destruct (advance c rest) as [rest'|]; [|discriminate].
      injection H as <-. rewrite first_groups_chr.
      destruct (Ascii.eqb a c).
      * rewrite find_handler_cons. cbn [with_regex regex handler_class].
        rewrite (IH rest' eq_refl). reflexivity.
      * apply IH. reflexivity.
    + destruct (Ascii.eqb c LF) eqn:Ec; [discriminate|].
      rewrite first_groups_end. cbn [Re.at_end]. rewrite Ec.
      cbn [andb]. apply IH. exact H.
Qed.

Lemma advance_all_sound (lit t : string) (specs specs' : list URLSpec) :
  advance_all lit specs = Some specs' ->
  find specs (lit ++ t) = find specs' t.
Proof.
  revert specs specs'. induction lit as [|c lit IH]; intros specs specs' H.
  - injection H as <-. reflexivity.
  - cbn [advance_all] in H.
    destruct (advance c specs) as [specs1|] eqn:E; [|discriminate].
    cbn [append]. rewrite (advance_sound c _ specs specs1 E).
    apply IH. exact H.
Qed.

Lemma is_not_slash_plus_inv (n : Re.node) :
  is_not_slash_plus n = true ->
  n = Re.NChars (Re.NotIn ["/"%char]) Re.OneOrMore.
Proof.
  destruct n as [[a|[|c [|c' cs]]|] [| |]|name body|]; try discriminate.
  cbn [is_not_slash_plus]. intros H. apply Ascii.eqb_eq in H. subst c.
  reflexivity.
Qed.

Lemma stops_slash (t : string) :
  stops (Re.NotIn ["/"%char]) (String "/" t).
Proof. reflexivity. Qed.

Lemma skip_version_sound (v t : string) (specs specs' : list URLSpec) :
  is_segment v = true ->
  skip_version specs = Some specs' ->
  find specs (v ++ String "/" t) = find specs' t.
Proof.
  intros Hv. pose proof Hv as Hv'. unfold is_segment in Hv'.
  apply andb_true_iff in Hv' as [Hne Hall].
  revert specs'. induction specs as [|spec rest IH]; intros specs' H.
  - injection H as <-. reflexivity.
  - cbn [skip_version] in H. rewrite find_handler_cons.
    destruct (regex spec) as [|n ns] eqn:E; [discriminate|].
    assert (Hend : forall ns', first_groups (Re.NEnd :: ns') (v ++ String "/" t) = None).
    { intros ns'. rewrite first_groups_end.
      rewrite (at_end_starts segment_char _ segment_char_not_LF
                 (segment_starts v _ Hv)). reflexivity. }
    destruct n as [k q|name body|].
    + destruct ns as [|[k2 q2|name2 body2|] ns2]; try discriminate.
      * destruct k2 as [a| |]; try discriminate.
        destruct q2; try discriminate.
        destruct (is_not_slash_plus (Re.NChars k q)) eqn:En; [|discriminate].
        destruct (Ascii.eqb a "/") eqn:Ea; [|discriminate].
        cbn [andb] in H. apply Ascii.eqb_eq in Ea. subst a.
        destruct (skip_version rest) as [rest'|]; [|discriminate].
        injection H as <-.
        rewrite (is_not_slash_plus_inv _ En).
        rewrite (first_groups_plus segment_char _ _ v (String "/" t)
                   segment_char_accepted Hne Hall (stops_slash t)
                   (dead_chr segment_char "/" ns2 segment_char_not_slash)).
        rewrite first_groups_chr. cbn [Ascii.eqb Bool.eqb].
        rewrite find_handler_cons. cbn [with_regex regex handler_class].
        rewrite (IH rest' eq_refl). reflexivity.
      * destruct (is_not_slash_plus (Re.NChars k q)) eqn:En; [|discriminate].
        rewrite (is_not_slash_plus_inv _ En).
        rewrite (first_groups_plus segment_char _ _ v (String "/" t)
                   segment_char_accepted Hne Hall (stops_slash t)
                   (dead_end segment_char ns2 segment_char_not_LF)).
        rewrite first_groups_end. cbn [Re.at_end Ascii.eqb Bool.eqb andb].
        apply IH. exact H.
    + destruct ns as [|[[a| |] [| |]|name2 body2|] ns2]; cbn in H; discriminate.
    + rewrite Hend. apply IH.
      destruct ns as [|[k2 q2|name2 body2|] ns2]; exact H.
Qed.

(** Below [/<version>/] the path is dispatched on what follows. *)
Lemma find_handler_versioned (v t : string) :
  is_segment v = true ->
  find urlspecs (String "/" (v ++ String "/" t)) = find versioned t.
Proof.
  intros Hv.
  rewrite (advance_sound "/" _ urlspecs after_slash eq_refl).
  apply skip_version_sound; [exact Hv | reflexivity].
Qed.

(** [/<version>] itself goes to the second route. *)
Lemma find_handler_version (v : string) :
  is_segment v = true ->
  find urlspecs (String "/" v) = Some (NullHandler, ([], [])).
Proof.
  intros Hv. pose proof Hv as Hv'. unfold is_segment in Hv'.
  apply andb_true_iff in Hv' as [Hne Hall].
  rewrite (advance_sound "/" _ urlspecs after_slash eq_refl).
  unfold after_slash. rewrite find_handler_cons. cbn [regex].
  rewrite first_groups_end.
  pose proof (segment_starts v "" Hv) as Hs. rewrite append_empty in Hs.
  rewrite (at_end_starts segment_char _ segment_char_not_LF Hs).
  rewrite find_handler_cons. cbn [regex handler_class].
  rewrite <- (append_empty v) at 1.
  rewrite (first_groups_plus segment_char _ _ v ""
             segment_char_accepted Hne Hall I
             (dead_end segment_char [] segment_char_not_LF)).
  reflexivity.
Qed.

Local Abbreviation serve_ := (serve url_unescape).

(** *** Running a handler *)

Lemma execute_unresolved (app : Application) (req : HTTPRequest)
      (h : handler) (args : list string) (kwargs : list (string * string)) :
  machine_resolver app (remote_ip req) = None ->
  execute app req h args kwargs = Uncaught AssertionError.
Proof.
  intros H. unfold execute, bind, prepare. rewrite H. reflexivity.
Qed.

Lemma execute_resolved (app : Application) (req : HTTPRequest)
      (h : handler) (args : list string) (kwargs : list (string * string))
      (m : Machine) :
  machine_resolver app (remote_ip req) = Some m ->
  execute app req h args kwargs
  = finish (get h app args kwargs
                {| request_machine := Some m; write_buffer := [] |}).
Proof.
  intros H. unfold execute, bind, prepare. rewrite H. reflexivity.
Qed.

Lemma execute_application (resolver : MachineResolver) (ip p : string)
      (h : handler) (args : list string) (kwargs : list (string * string))
      (m : Machine) :
  resolver ip = Some m ->
  execute (application resolver) (GET ip p) h args kwargs
  = finish (get h (application resolver) args kwargs
                {| request_machine := Some m; write_buffer := [] |}).
Proof. intros H. apply execute_resolved. exact H. Qed.

(** A request to the registered table whose path is dispatched to [h]. *)
Lemma serve_found (resolver : MachineResolver) (ip p : string) (h : handler)
      (args : list string) (kwargs : list (string * string)) :
  find urlspecs p = Some (h, (args, kwargs)) ->
  serve_ (application resolver) (GET ip p)
  = execute (application resolver) (GET ip p) h args kwargs.
Proof.
  intros H. unfold serve. cbn [handlers application path GET].
  rewrite H. reflexivity.
Qed.

Lemma serve_versioned (resolver : MachineResolver) (ip v t : string)
      (h : handler) (args : list string) (kwargs : list (string * string)) :
  is_segment v = true ->
  find versioned t = Some (h, (args, kwargs)) ->
  serve_ (application resolver) (GET ip (String "/" (v ++ String "/" t)))
  = execute (application resolver)
            (GET ip (String "/" (v ++ String "/" t))) h args kwargs.
Proof.
  intros Hv H. apply serve_found.
  rewrite (find_handler_versioned v t Hv). exact H.
Qed.

(** *** The routes without parameters *)

Lemma serve_root (resolver : MachineResolver) (ip : string) (m : Machine) :
  resolver ip = Some m ->
  serve_ (application resolver) (GET ip "/") = Finished (join nl versions).
Proof.
  intros H. rewrite (serve_found resolver ip "/" ApiRootHandler [] [] eq_refl).
  rewrite (execute_application _ _ _ _ _ _ m H). reflexivity.
Qed.

Lemma serve_version (resolver : MachineResolver) (ip v : string) (m : Machine) :
  resolver ip = Some m -> is_segment v = true ->
  serve_ (application resolver) (GET ip (String "/" v)) = Finished "".
Proof.
  intros H Hv.
  rewrite (serve_found resolver ip _ NullHandler [] []
             (find_handler_version v Hv)).
  rewrite (execute_application _ _ _ _ _ _ m H). reflexivity.
Qed.

Lemma serve_version_slash (resolver : MachineResolver) (ip v : string)
      (m : Machine) :
  resolver ip = Some m -> is_segment v = true ->
  serve_ (application resolver) (GET ip (String "/" (v ++ "/")))
  = Finished (join nl apis).
Proof.
  intros H Hv.
  rewrite (serve_versioned resolver ip v "" ApiVersionRootHandler [] [] Hv eq_refl).
  rewrite (execute_application _ _ _ _ _ _ m H). reflexivity.
Qed.

Lemma serve_version_metadata (resolver : MachineResolver) (ip v : string)
      (m : Machine) :
  resolver ip = Some m -> is_segment v = true ->
  serve_ (application resolver) (GET ip (String "/" (v ++ "/meta-data")))
  = Finished "".
Proof.
  intros H Hv.
  rewrite (serve_versioned resolver ip v "meta-data" NullHandler [] [] Hv eq_refl).
  rewrite (execute_application _ _ _ _ _ _ m H). reflexivity.
Qed.

(** *** Placement *)

Lemma serve_placement (resolver : MachineResolver) (ip v : string)
      (m : Machine) :
  resolver ip = Some m -> is_segment v = true ->
  serve_ (application resolver)
         (GET ip (String "/" (v ++ "/meta-data/placement/")))
  = Finished "availability-zone".
Proof.
  intros H Hv.
  rewrite (serve_versioned resolver ip v "meta-data/placement/"
             PlacementAvailabilityZoneHandler [] [] Hv eq_refl).
  rewrite (execute_application _ _ _ _ _ _ m H). reflexivity.
Qed.

Lemma find_handler_zone :
  find versioned "meta-data/placement/availability-zone"
  = Some (PlacementAvailabilityZoneHandler, (["availability-zone"], [])).
Proof.
  rewrite <- (url_unescape_plain "availability-zone" eq_refl) at 2.
  reflexivity.
Qed.

Lemma serve_zone (resolver : MachineResolver) (ip v : string) (m : Machine) :
  resolver ip = Some m -> is_segment v = true ->
  serve_ (application resolver)
         (GET ip (String "/" (v ++ "/meta-data/placement/availability-zone")))
  = Finished (get_placement_availability_zone m).
Proof.
  intros H Hv.
  rewrite (serve_versioned resolver ip v _ _ _ _ Hv find_handler_zone).
  rewrite (execute_application _ _ _ _ _ _ m H). reflexivity.
Qed.

(** *** The listing *)

Lemma match_seq_groups (ns : Re.regex) :
  (exists name body, In (Re.NGroup name body) ns) ->
  forall s m, In m (Re.match_seq ns s) -> Re.groups m <> [].
Proof.
  induction ns as [|n ns IH]; intros [name [body Hin]] s m Hm.
  - destruct Hin.
  - cbn [Re.match_seq] in Hm. apply in_flat_map in Hm as [m1 [Hm1 Hm]].
    unfold Re.then_ in Hm. apply in_map_iff in Hm as [m2 [<- Hm2]].
    cbn [Re.groups]. destruct Hin as [-> | Hin].
    + rewrite match_group_body in Hm1.
      apply in_map_iff in Hm1 as [m0 [<- _]]. discriminate.
    + intros E. apply app_eq_nil in E as [_ E].
      exact (IH (ex_intro _ name (ex_intro _ body Hin)) _ m2 Hm2 E).
Qed.

Lemma search_found (r : Re.regex) (s : string) (m : Re.state) :
  Re.search r s = Some m -> exists s', In m (Re.match_seq r s').
Proof.
  induction s as [|c s IH]; cbn [Re.search]; unfold Re.match_.
  - destruct (Re.match_seq r "") as [|m0 ms] eqn:E; [discriminate|].
    cbn [hd_error]. intros [= <-]. exists "". rewrite E. left. reflexivity.
  - destruct (Re.match_seq r (String c s)) as [|m0 ms] eqn:E.
    + exact IH.
    + cbn [hd_error]. intros [= <-]. exists (String c s). rewrite E.
      left. reflexivity.
Qed.

(** One turn of the loop adds the leaf of the URL spec, if it has one. *)
Lemma MetadataHandler_step_leaf (urls : list string) (spec : URLSpec)
      (st : HandlerState) :
  MetadataHandler_step urls spec st
  = (Normal (urls ++ match leaf (regex_pattern spec) with
                     | Some name => [name]
                     | None => []
                     end), st).
Proof.
  unfold MetadataHandler_step, leaf, re_search, bind.
  destruct (contains "/meta-data/" (regex_pattern spec)
            && negb (endswith (regex_pattern spec) "/meta-data/$"));
    [|unfold ret; rewrite app_nil_r; reflexivity].
  destruct (Re.compile listing_pattern) as [r|] eqn:E;
    [|vm_compute in E; discriminate].
  unfold ret.
  destruct (Re.search r (regex_pattern spec)) as [m|] eqn:Es;
    [|rewrite app_nil_r; reflexivity].
  destruct (search_found _ _ _ Es) as [s' Hm].
  assert (Hg : Re.groups m <> []).
  { apply (match_seq_groups r) with (s := s'); [|exact Hm].
    vm_compute in E. injection E as <-.
    do 2 eexists. do 11 right. left. reflexivity. }
  unfold Re.group. destruct (Re.groups m) as [|g gs]; [contradiction|].
  reflexivity.
Qed.

Lemma for_each_leaves (specs : list URLSpec) (urls : list string)
      (st : HandlerState) :
  for_each specs urls MetadataHandler_step st
  = (Normal (urls ++ leaves specs), st).
Proof.
  revert urls. induction specs as [|spec specs IH]; intros urls.
  - cbn [for_each leaves flat_map]. unfold ret. rewrite app_nil_r. reflexivity.
  - cbn [for_each]. unfold bind at 1. rewrite MetadataHandler_step_leaf, IH.
    cbn [leaves flat_map]. rewrite <- app_assoc. reflexivity.
Qed.

Lemma execute_listing (app : Application) (req : HTTPRequest) (m : Machine) :
  machine_resolver app (remote_ip req) = Some m ->
  execute app req MetadataHandler [] []
  = Finished (join nl (leaves (handlers app))).
Proof.
  intros H. rewrite (execute_resolved _ _ _ _ _ m H).
  cbn [get bind_arguments parameters bind_positional fold_left map option_map].
  unfold MetadataHandler_get, bind. rewrite for_each_leaves.
  reflexivity.
Qed.

Lemma serve_listing (resolver : MachineResolver) (ip v : string) (m : Machine) :
  resolver ip = Some m -> is_segment v = true ->
  serve_ (application resolver) (GET ip (String "/" (v ++ "/meta-data/")))
  = Finished (join nl (leaves urlspecs)).
Proof.
  intros H Hv.
  rewrite (serve_versioned resolver ip v "meta-data/" MetadataHandler [] []
             Hv eq_refl).
  exact (execute_listing (application resolver) (GET ip _) m H).
Qed.

(** *** Public keys *)

Lemma advance_public_keys :
  advance_all "meta-data/public-keys" versioned = Some public_keys_specs.
Proof. vm_compute. reflexivity. Qed.

Lemma find_handler_public_keys (v t : string) :
  is_segment v = true ->
  find urlspecs (String "/" (v ++ "/meta-data/public-keys" ++ t))
  = find public_keys_specs t.
Proof.
  intros Hv.
  etransitivity;
    [exact (find_handler_versioned v ("meta-data/public-keys" ++ t) Hv)|].
  exact (advance_all_sound "meta-data/public-keys" t versioned _
         advance_public_keys).
Qed.

Lemma dead_digit_slash_end :
  dead is_digit [Re.NChars (Re.Chr "/") Re.Optional; Re.NEnd].
Proof.
  apply dead_opt; [exact is_digit_not_slash|].
  apply dead_end. exact is_digit_not_LF.
Qed.

Lemma at_end_digits (d r : string) :
  is_digits d = true -> Re.at_end (d ++ r) = false.
Proof.
  intros Hd.
  exact (at_end_starts is_digit _ is_digit_not_LF (digits_start d r Hd)).
Qed.

Lemma at_end_segment (f : string) :
  is_segment f = true -> Re.at_end f = false.
Proof.
  intros Hf. pose proof (segment_starts f "" Hf) as Hs.
  rewrite append_empty in Hs.
  exact (at_end_starts segment_char _ segment_char_not_LF Hs).
Qed.

Lemma stops_digit_slash (t : string) : stops Re.Digit (String "/" t).
Proof. reflexivity. Qed.

Lemma first_groups_hit (a : ascii) (ns : Re.regex) (t : string) :
  first_groups (Re.NChars (Re.Chr a) Re.Once :: ns) (String a t)
  = first_groups ns t.
Proof. rewrite first_groups_chr, Ascii.eqb_refl. reflexivity. Qed.

Lemma first_groups_opt_hit (a : ascii) (ns : Re.regex) (t : string) :
  first_groups (Re.NChars (Re.Chr a) Re.Optional :: ns) (String a t)
  = match first_groups ns t with
    | Some g => Some g
    | None => first_groups ns (String a t)
    end.
Proof. rewrite first_groups_opt, Ascii.eqb_refl. reflexivity. Qed.

Lemma first_groups_end_slash (ns : Re.regex) (t : string) :
  first_groups (Re.NEnd :: ns) (String "/" t) = None.
Proof. rewrite first_groups_end. reflexivity. Qed.

Lemma first_groups_end_empty : first_groups [Re.NEnd] "" = Some [].
Proof. reflexivity. Qed.

(** [.../public-keys/<number>/] goes to the route with the number alone. *)
Lemma find_handler_key (d : string) :
  is_digits d = true ->
  find public_keys_specs (String "/" (d ++ "/"))
  = Some (PublicKeysHandler, ([], [("number", d)])).
Proof.
  intros Hd. pose proof Hd as Hd'. unfold is_digits in Hd'.
  apply andb_true_iff in Hd' as [Hne Hall].
  unfold public_keys_specs.
  rewrite find_handler_cons. cbn [regex handler_class].
  rewrite first_groups_opt_hit, first_groups_end_slash.
  rewrite first_groups_end, (at_end_digits d "/" Hd).
  rewrite find_handler_cons. cbn [regex handler_class].
  rewrite first_groups_hit.
  rewrite (first_groups_group_plus is_digit _ Re.Digit _ d "/"
             (fun c H => H) Hne Hall (stops_digit_slash "")
             dead_digit_slash_end).
  rewrite first_groups_opt_hit, first_groups_end_empty.
  cbn [option_map]. unfold arguments. cbn [existsb fst snd orb flat_map app].
  rewrite (url_unescape_plain d (digits_plain d Hd)). reflexivity.
Qed.

(** [.../public-keys/<number>/<format>] goes to the last key route. *)
Lemma find_handler_key_format (d f : string) :
  is_digits d = true -> is_segment f = true ->
  find public_keys_specs (String "/" (d ++ String "/" f))
  = Some (PublicKeysHandler,
          ([], [("number", d); ("key_format", url_unescape f)])).
Proof.
  intros Hd Hf. pose proof Hd as Hd'. unfold is_digits in Hd'.
  apply andb_true_iff in Hd' as [Hne Hall].
  pose proof Hf as Hf'. unfold is_segment in Hf'.
  apply andb_true_iff in Hf' as [Hnef Hallf].
  unfold public_keys_specs.
  rewrite find_handler_cons. cbn [regex handler_class].
  rewrite first_groups_opt_hit, first_groups_end_slash.
  rewrite first_groups_end, (at_end_digits d _ Hd).
  rewrite find_handler_cons. cbn [regex handler_class].
  rewrite first_groups_hit.
  rewrite (first_groups_group_plus is_digit _ Re.Digit _ d (String "/" f)
             (fun c H => H) Hne Hall (stops_digit_slash f)
             dead_digit_slash_end).
  rewrite first_groups_opt_hit, first_groups_end_slash.
  rewrite first_groups_end, (at_end_segment f Hf).
  cbn [option_map].
  rewrite find_handler_cons. cbn [regex handler_class].
  rewrite first_groups_hit.
  rewrite (first_groups_group_plus is_digit _ Re.Digit _ d (String "/" f)
             (fun c H => H) Hne Hall (stops_digit_slash f)
             (dead_chr is_digit "/" _ is_digit_not_slash)).
  rewrite first_groups_hit.
  rewrite <- (append_empty f) at 1.
  rewrite (first_groups_group_plus segment_char _ _ _ f ""
             segment_char_accepted Hnef Hallf I
             (dead_end segment_char [] segment_char_not_LF)).
  rewrite first_groups_end_empty.
  cbn [option_map]. unfold arguments. cbn [existsb fst snd orb flat_map app].
  rewrite (url_unescape_plain d (digits_plain d Hd)). reflexivity.
Qed.

Lemma serve_public_keys (resolver : MachineResolver) (ip v t : string)
      (h : handler) (args : list string) (kwargs : list (string * string)) :
  is_segment v = true ->
  find public_keys_specs t = Some (h, (args, kwargs)) ->
  serve_ (application resolver)
         (GET ip (String "/" (v ++ "/meta-data/public-keys" ++ t)))
  = execute (application resolver)
            (GET ip (String "/" (v ++ "/meta-data/public-keys" ++ t)))
            h args kwargs.
Proof.
  intros Hv H. apply serve_found.
  rewrite (find_handler_public_keys v t Hv). exact H.
Qed.

Lemma serve_keys (resolver : MachineResolver) (ip v : string) (m : Machine) :
  resolver ip = Some m -> is_segment v = true ->
  serve_ (application resolver)
         (GET ip (String "/" (v ++ "/meta-data/public-keys/")))
  = Finished (join nl (map (fun ik => (percent_d (fst ik) ++ "=" ++ snd ik)%string)
                           (enumerate (keys (get_keys m))))).
Proof.
  intros H Hv.
  rewrite (serve_versioned resolver ip v "meta-data/public-keys/"
             PublicKeysHandler [] [] Hv eq_refl).
  rewrite (execute_application _ _ _ _ _ _ m H). reflexivity.
Qed.

Lemma serve_key (resolver : MachineResolver) (ip v d : string) (m : Machine)
      (n : nat) :
  resolver ip = Some m -> is_segment v = true ->
  is_digits d = true -> int d = Some n ->
  serve_ (application resolver)
         (GET ip (String "/" (v ++ "/meta-data/public-keys/" ++ d ++ "/")))
  = match nth_error (values (get_keys m)) n with
    | Some key => Finished (join nl (keys key))
    | None => Uncaught IndexError
    end.
Proof.
  intros H Hv Hd Hn.
  etransitivity;
    [exact (serve_public_keys resolver ip v _ _ _ _ Hv (find_handler_key d Hd))|].
  rewrite (execute_application _ _ _ _ _ _ m H).
  change (get PublicKeysHandler (application resolver) [] [("number", d)])
    with (PublicKeysHandler_get (Some d) None).
  unfold PublicKeysHandler_get, bind at 1. rewrite Hn.
  unfold list_index, the_machine, bind, ret. cbn [request_machine].
  destruct (nth_error (values (get_keys m)) n); reflexivity.
Qed.

Lemma serve_key_format (resolver : MachineResolver) (ip v d f : string)
      (m : Machine) (n : nat) :
  resolver ip = Some m -> is_segment v = true ->
  is_digits d = true -> int d = Some n -> is_segment f = true ->
  serve_ (application resolver)
         (GET ip (String "/" (v ++ "/meta-data/public-keys/" ++ d ++ "/" ++ f)))
  = match nth_error (values (get_keys m)) n with
    | Some key =>
        match getitem key (url_unescape f) with
        | Some material => Finished material
        | None => Uncaught (KeyError (url_unescape f))
        end
    | None => Uncaught IndexError
    end.
Proof.
  intros H Hv Hd Hn Hf.
  etransitivity;
    [exact (serve_public_keys resolver ip v _ _ _ _ Hv
              (find_handler_key_format d f Hd Hf))|].
  rewrite (execute_application _ _ _ _ _ _ m H).
  change (get PublicKeysHandler (application resolver) []
              [("number", d); ("key_format", url_unescape f)])
    with (PublicKeysHandler_get (Some d) (Some (url_unescape f))).
  unfold PublicKeysHandler_get, bind at 1. rewrite Hn.
  unfold list_index, dict_index, the_machine, bind, ret.
  cbn [request_machine].
  destruct (nth_error (values (get_keys m)) n) as [key|]; [|reflexivity].
  cbv beta iota.
  destruct (getitem key (url_unescape f)); reflexivity.
Qed.

(** *** The index lines *)

Lemma nth_error_enumerate_from {A} (l : list A) (k i : nat) :
  nth_error (enumerate_from k l) i
  = option_map (fun x => (k + i, x)) (nth_error l i).
Proof.
  revert k i. induction l as [|x l IH]; intros k [|i]; cbn; try reflexivity.
  - rewrite Nat.add_0_r. reflexivity.
  - rewrite IH, Nat.add_succ_r. reflexivity.
Qed.

Lemma length_enumerate_from {A} (l : list A) (k : nat) :
  length (enumerate_from k l) = length l.
Proof.
  revert k. induction l as [|x l IH]; intros k; cbn; [|rewrite IH];
    reflexivity.
Qed.

Lemma to_uint_not_Nil (n : nat) : Nat.to_uint n <> Decimal.Nil.
Proof.
  intros E. pose proof (Unsigned.to_of (Nat.to_uint n)) as H.
  rewrite Unsigned.of_to, E in H. discriminate H.
Qed.

Lemma int_percent_d (n : nat) : int (percent_d n) = Some n.
Proof.
  unfold int, percent_d.
  destruct (NilEmpty.string_of_uint (Nat.to_uint n)) eqn:E.
  - exfalso. apply (to_uint_not_Nil n).
    destruct (Nat.to_uint n); try discriminate E. reflexivity.
  - rewrite <- E, NilEmpty.usu. cbn [option_map].
    rewrite Unsigned.of_to. reflexivity.
Qed.

Lemma all_digits_string_of_uint (u : Decimal.uint) :
  all_chars is_digit (NilEmpty.string_of_uint u) = true.
Proof. induction u; cbn; try rewrite IHu; reflexivity. Qed.

Lemma is_digits_percent_d (n : nat) : is_digits (percent_d n) = true.
Proof.
  unfold is_digits, percent_d. rewrite all_digits_string_of_uint.
  pose proof (to_uint_not_Nil n) as H.
  destruct (Nat.to_uint n); try reflexivity. contradiction.
Qed.

(** *** What the routes return *)

(** C8.  [GET /], from an address that resolves to a machine, returns the
    thirteen version names 1.0, 2007-01-19, ..., 2012-01-12, latest, in
    that order, joined by line feeds. *)
Theorem root_lists_versions (resolver : MachineResolver) (ip : string)
        (m : Machine) :
  resolver ip = Some m ->
  serve_ (application resolver) (GET ip "/")
  = Finished
      (join nl ["1.0"; "2007-01-19"; "2007-03-01"; "2007-08-29";
                "2007-10-10"; "2007-12-15"; "2008-02-01"; "2008-09-01";
                "2009-04-04"; "2011-01-01"; "2011-05-01"; "2012-01-12";
                "latest"]).
Proof. exact (serve_root resolver ip m). Qed.

(** C9.  For every version token, [GET /<version>/] returns the two lines
    meta-data and user-data, joined by a line feed. *)
Theorem version_root_lists_apis (resolver : MachineResolver)
        (ip v : string) (m : Machine) :
  resolver ip = Some m -> is_segment v = true ->
  serve_ (application resolver) (GET ip ("/" ++ v ++ "/"))
  = Finished ("meta-data" ++ nl ++ "user-data").
Proof. exact (serve_version_slash resolver ip v m). Qed.

(** C7.  For every path segment used as the version token, in the
    published list or not, [GET /<version>] and [GET /<version>/meta-data]
    finish with status 200 and an empty body: the token is never compared
    with the published versions. *)
Theorem version_token_not_validated (resolver : MachineResolver)
        (ip v : string) (m : Machine) :
  resolver ip = Some m -> is_segment v = true ->
  serve_ (application resolver) (GET ip ("/" ++ v)) = Finished ""
  /\ serve_ (application resolver) (GET ip ("/" ++ v ++ "/meta-data"))
     = Finished ""
  /\ status_code (serve_ (application resolver) (GET ip ("/" ++ v))) = 200
  /\ status_code
       (serve_ (application resolver) (GET ip ("/" ++ v ++ "/meta-data")))
     = 200.
Proof.
  intros H Hv.
  pose proof (serve_version resolver ip v m H Hv) as E1.
  pose proof (serve_version_metadata resolver ip v m H Hv) as E2.
  cbn [append] in *. rewrite E1, E2. repeat split; reflexivity.
Qed.

(** C6.  For every machine, [GET /<version>/meta-data/placement/] returns
    the literal text availability-zone and
    [GET /<version>/meta-data/placement/availability-zone] returns the
    zone of the machine; the two responses differ whenever the zone is not
    the text availability-zone itself. *)
Theorem placement_hint_and_zone (resolver : MachineResolver)
        (ip v : string) (m : Machine) :
  resolver ip = Some m -> is_segment v = true ->
  serve_ (application resolver)
         (GET ip ("/" ++ v ++ "/meta-data/placement/"))
  = Finished "availability-zone"
  /\ serve_ (application resolver)
            (GET ip ("/" ++ v ++ "/meta-data/placement/availability-zone"))
     = Finished (get_placement_availability_zone m)
  /\ (get_placement_availability_zone m <> "availability-zone" ->
      serve_ (application resolver)
             (GET ip ("/" ++ v ++ "/meta-data/placement/"))
      <> serve_ (application resolver)
                (GET ip ("/" ++ v ++ "/meta-data/placement/availability-zone"))).
Proof.
  intros H Hv.
  pose proof (serve_placement resolver ip v m H Hv) as E1.
  pose proof (serve_zone resolver ip v m H Hv) as E2.
  cbn [append] in *. rewrite E1, E2. repeat split.
  intros Hz [= E]. apply Hz. symmetry. exact E.
Qed.

(** C3.  For every machine: [GET /<version>/meta-data/public-keys/]
    returns one line [<index>=<name>] per key, [<index>] being the position
    of the key in the key table, from zero;
    [GET /<version>/meta-data/public-keys/<index>/] returns the format
    names of the key at that position, one per line in their order; and
    [GET /<version>/meta-data/public-keys/<index>/<format>] returns the
    key material stored under that format, unchanged.  The index is read
    from its decimal digits, which always succeeds, and the index printed
    in a line of the listing reads back as the position of that line. *)
Theorem public_keys_protocol (resolver : MachineResolver) (ip v : string)
        (m : Machine) :
  resolver ip = Some m -> is_segment v = true ->
  (exists lines,
      serve_ (application resolver)
             (GET ip ("/" ++ v ++ "/meta-data/public-keys/"))
      = Finished (join nl lines)
      /\ length lines = length (get_keys m)
      /\ forall i name formats,
           nth_error (get_keys m) i = Some (name, formats) ->
           nth_error lines i = Some (percent_d i ++ "=" ++ name)%string)
  /\ (forall i, is_digits (percent_d i) = true /\ int (percent_d i) = Some i)
  /\ (forall d, is_digits d = true -> exists i, int d = Some i)
  /\ (forall d i name formats,
        is_digits d = true -> int d = Some i ->
        nth_error (get_keys m) i = Some (name, formats) ->
        serve_ (application resolver)
               (GET ip ("/" ++ v ++ "/meta-data/public-keys/" ++ d ++ "/"))
        = Finished (join nl (map fst formats))
        /\ forall f material,
             is_segment f = true ->
             getitem formats (url_unescape f) = Some material ->
             serve_ (application resolver)
                    (GET ip ("/" ++ v ++ "/meta-data/public-keys/"
                                 ++ d ++ "/" ++ f))
             = Finished material).
Proof.
  intros H Hv. split; [|split; [|split; [exact digits_int|]]].
  - eexists. split; [exact (serve_keys resolver ip v m H Hv)|]. split.
    + unfold enumerate, keys.
      rewrite length_map, length_enumerate_from, length_map. reflexivity.
    + intros i name formats Hi. unfold enumerate, keys.
      rewrite nth_error_map, nth_error_enumerate_from, nth_error_map, Hi.
      reflexivity.
  - intros i. split; [apply is_digits_percent_d | apply int_percent_d].
  - intros d i name formats Hd Hi Hk.
    assert (Hval : nth_error (values (get_keys m)) i = Some formats).
    { unfold values. rewrite nth_error_map, Hk. reflexivity. }
    split.
    + pose proof (serve_key resolver ip v d m i H Hv Hd Hi) as E.
      rewrite Hval in E. exact E.
    + intros f material Hf Hg.
      pose proof (serve_key_format resolver ip v d f m i H Hv Hd Hi Hf) as E.
      rewrite Hval, Hg in E. exact E.
Qed.

(** C1.  What the code does for an index that is not below the number of
    keys: on both [.../public-keys/<index>/] and
    [.../public-keys/<index>/<format>] the lookup in the list of keys
    raises [IndexError], nothing catches it, and the response is the 500
    of an uncaught exception and not a not-found response. *)
Theorem key_index_out_of_range_raises (resolver : MachineResolver)
        (ip v d : string) (m : Machine) (n : nat) :
  resolver ip = Some m -> is_segment v = true ->
  is_digits d = true -> int d = Some n -> length (get_keys m) <= n ->
  serve_ (application resolver)
         (GET ip ("/" ++ v ++ "/meta-data/public-keys/" ++ d ++ "/"))
  = Uncaught IndexError
  /\ (forall f, is_segment f = true ->
                serve_ (application resolver)
                       (GET ip ("/" ++ v ++ "/meta-data/public-keys/"
                                    ++ d ++ "/" ++ f))
                = Uncaught IndexError)
  /\ status_code (Uncaught IndexError) = 500
  /\ status_code (Uncaught IndexError) <> status_code NoRoute.
Proof.
  intros H Hv Hd Hn Hlen.
  assert (Hval : nth_error (values (get_keys m)) n = None).
  { apply nth_error_None. unfold values. rewrite length_map. exact Hlen. }
  split; [|split; [|split]].
  - pose proof (serve_key resolver ip v d m n H Hv Hd Hn) as E.
    rewrite Hval in E. exact E.
  - intros f Hf.
    pose proof (serve_key_format resolver ip v d f m n H Hv Hd Hn Hf) as E.
    rewrite Hval in E. exact E.
  - reflexivity.
  - discriminate.
Qed.

(** *** The listing and the order of the table *)

Lemma leaves_app (specs1 specs2 : list URLSpec) :
  leaves (specs1 ++ specs2) = (leaves specs1 ++ leaves specs2)%list.
Proof. unfold leaves. apply flat_map_app. Qed.

Lemma leaf_under_metadata (spec : URLSpec) (name : string) :
  leaf (regex_pattern spec) = Some name -> under_metadata spec = true.
Proof.
  unfold leaf, under_metadata.
  destruct (contains "/meta-data/" (regex_pattern spec)
            && negb (endswith (regex_pattern spec) "/meta-data/$"));
    [reflexivity | discriminate].
Qed.

(** C2, amended.  The listing of [/<version>/meta-data/] is computed by
    going through the route table in registration order; an entry adds a
    line only if its pattern contains [/meta-data/], does not end with
    [/meta-data/$] and has, after [/meta-data/], a single component up to
    the end anchor (with an optional slash and question mark), so the
    deeper routes of placement and public-keys add none; the line is that
    component with its slash; the lines come in registration order, which
    is not the alphabetical one.  For the registered table the lines are
    instance-id, instance-type, hostname, local-hostname, local-ipv4,
    public-ipv4, placement/ and public-keys/. *)
Theorem metadata_listing_registration_order :
  (forall app req m,
      machine_resolver app (remote_ip req) = Some m ->
      execute app req MetadataHandler [] []
      = Finished (join nl (leaves (handlers app))))
  /\ (forall specs1 specs2,
        leaves (specs1 ++ specs2) = (leaves specs1 ++ leaves specs2)%list)
  /\ (forall spec name,
        leaf (regex_pattern spec) = Some name -> under_metadata spec = true)
  /\ map (fun spec => leaf (regex_pattern spec)) urlspecs
     = [None; None; None; None; None;
        Some "instance-id"; Some "instance-type"; Some "hostname";
        Some "local-hostname"; Some "local-ipv4"; Some "public-ipv4";
        Some "placement/"; None; Some "public-keys/"; None; None; None]
  /\ (forall resolver ip v m,
        resolver ip = Some m -> is_segment v = true ->
        serve_ (application resolver) (GET ip ("/" ++ v ++ "/meta-data/"))
        = Finished
            (join nl ["instance-id"; "instance-type"; "hostname";
                      "local-hostname"; "local-ipv4"; "public-ipv4";
                      "placement/"; "public-keys/"]))
  /\ (exists before after,
        leaves urlspecs
        = (before ++ "instance-type" :: "hostname" :: after)%list
        /\ String.ltb "hostname" "instance-type" = true).
Proof.
  split; [exact execute_listing|].
  split; [exact leaves_app|].
  split; [exact leaf_under_metadata|].
  split; [vm_compute; reflexivity|].
  split.
  - intros resolver ip v m H Hv.
    exact (serve_listing resolver ip v m H Hv).
  - exists ["instance-id"],
           ["local-hostname"; "local-ipv4"; "public-ipv4"; "placement/";
            "public-keys/"].
    split; vm_compute; reflexivity.
Qed.

Lemma first_groups_versioned (v t : string) (ns : Re.regex) :
  is_segment v = true ->
  first_groups (Re.NChars (Re.Chr "/") Re.Once
                :: Re.NChars (Re.NotIn ["/"%char]) Re.OneOrMore
                :: Re.NChars (Re.Chr "/") Re.Once :: ns)
               (String "/" (v ++ String "/" t))
  = first_groups ns t.
Proof.
  intros Hv. unfold is_segment in Hv.
  apply andb_true_iff in Hv as [Hne Hall].
  rewrite first_groups_hit.
  rewrite (first_groups_plus segment_char _ _ v (String "/" t)
             segment_char_accepted Hne Hall (stops_slash t)
             (dead_chr segment_char "/" ns segment_char_not_slash)).
  apply first_groups_hit.
Qed.

Lemma first_groups_None (r : Re.regex) (s : string) :
  first_groups r s = None -> Re.match_ r s = None.
Proof.
  unfold first_groups. destruct (Re.match_ r s); [discriminate|reflexivity].
Qed.

(** Only the first match is used. *)
Lemma find_handler_first (specs : list URLSpec) (p : string) (h : handler)
      (args : list string * list (string * string)) :
  find specs p = Some (h, args) ->
  exists before spec after m,
    specs = (before ++ spec :: after)%list
    /\ Forall (fun s => Re.match_ (regex s) p = None) before
    /\ Re.match_ (regex spec) p = Some m
    /\ h = handler_class spec
    /\ args = arguments url_unescape (Re.groups m).
Proof.
  induction specs as [|spec specs IH]; cbn [find_handler]; [discriminate|].
  destruct (Re.match_ (regex spec) p) as [m|] eqn:E.
  - intros [= <- <-]. exists [], spec, specs, m.
    repeat split; [constructor | exact E].
  - intros H. destruct (IH H) as [before [spec' [after [m [-> [F R]]]]]].
    exists (spec :: before), spec', after, m.
    split; [reflexivity|]. split; [|exact R].
    constructor; [exact E | exact F].
Qed.

Lemma catch_all_before_literal : precedes catch_all_route literal_route routes.
Proof. exists 11, 12. repeat split. lia. Qed.

(** C5, amended.  Dispatch uses only the first entry of the table, in
    registration order, whose pattern matches the whole path.  In the
    registered table the route [placement/?] comes before the literal
    route [placement/(availability-zone)]; its pattern, anchored at the
    end, does not match [/<version>/meta-data/placement/availability-zone],
    so for every version token that path is handled by the literal route,
    with [availability-zone] as its argument, and returns the zone. *)
Theorem zone_route_not_shadowed :
  (forall specs p h args,
      find specs p = Some (h, args) ->
      exists before spec after m,
        specs = (before ++ spec :: after)%list
        /\ Forall (fun s => Re.match_ (regex s) p = None) before
        /\ Re.match_ (regex spec) p = Some m
        /\ h = handler_class spec
        /\ args = arguments url_unescape (Re.groups m))
  /\ precedes catch_all_route literal_route routes
  /\ (forall v,
        is_segment v = true ->
        (forall spec,
            In spec urlspecs ->
            regex_pattern spec = (fst catch_all_route ++ "$")%string ->
            Re.match_ (regex spec)
                      ("/" ++ v ++ "/meta-data/placement/availability-zone")
            = None)
        /\ find urlspecs
                ("/" ++ v ++ "/meta-data/placement/availability-zone")
           = Some (PlacementAvailabilityZoneHandler,
                   (["availability-zone"], []))
        /\ forall resolver ip m,
             resolver ip = Some m ->
             serve_ (application resolver)
                    (GET ip ("/" ++ v
                                 ++ "/meta-data/placement/availability-zone"))
             = Finished (get_placement_availability_zone m)).
Proof.
  split; [exact find_handler_first|].
  split; [exact catch_all_before_literal|].
  intros v Hv. split; [|split].
  - intros spec Hin Hp. apply first_groups_None.
    unfold urlspecs in Hin. cbn [In] in Hin.
    repeat (destruct Hin as [<- | Hin]; [try discriminate Hp|]);
      [|destruct Hin].
    cbn [regex append].
    etransitivity;
      [exact (first_groups_versioned
                v "meta-data/placement/availability-zone" _ Hv)|].
    vm_compute. reflexivity.
  - etransitivity;
      [exact (find_handler_versioned
                v "meta-data/placement/availability-zone" Hv)|].
    exact find_handler_zone.
  - intros resolver ip m H. exact (serve_zone resolver ip v m H Hv).
Qed.

(** *** Addresses that do not resolve *)

Lemma serve_unresolved (resolver : MachineResolver) (ip p : string)
      (h : handler) (args : list string) (kwargs : list (string * string)) :
  resolver ip = None ->
  find urlspecs p = Some (h, (args, kwargs)) ->
  serve_ (application resolver) (GET ip p) = Uncaught AssertionError.
Proof.
  intros H Hf. rewrite (serve_found resolver ip p h args kwargs Hf).
  apply execute_unresolved. exact H.
Qed.

Lemma serve_unresolved_not_finished (resolver : MachineResolver)
      (ip p body : string) :
  resolver ip = None ->
  serve_ (application resolver) (GET ip p) <> Finished body.
Proof.
  intros H. unfold serve. cbn [handlers application path GET].
  destruct (find urlspecs p) as [[h [args kwargs]]|]; [|discriminate].
  rewrite (execute_unresolved (application resolver) (GET ip p) h args kwargs H).
  discriminate.
Qed.

Lemma data_paths_routed :
  forallb (fun t => match find versioned t with
                    | Some _ => true
                    | None => false
                    end) data_paths = true.
Proof. vm_compute. reflexivity. Qed.

Lemma serve_unresolved_versioned (resolver : MachineResolver)
      (ip v t : string) :
  resolver ip = None -> is_segment v = true ->
  (match find versioned t with Some _ => true | None => false end) = true ->
  serve_ (application resolver) (GET ip (String "/" (v ++ String "/" t)))
  = Uncaught AssertionError.
Proof.
  intros H Hv Ht.
  destruct (find versioned t) as [[h [args kwargs]]|] eqn:E; [|discriminate].
  apply (serve_unresolved resolver ip _ h args kwargs H).
  rewrite (find_handler_versioned v t Hv). exact E.
Qed.

(** C4, amended.  When the resolver has no machine for the source address,
    [prepare] fails its assertion before [get] runs: every path that the
    table routes, the metadata and user-data paths among them, ends in the
    same uncaught [AssertionError], which Tornado answers with status 500
    (an internal error, not a not-found response); no path ends in a
    finished response, so the outcome cannot be taken for a success with
    an empty body. *)
Theorem unresolved_address_fails_every_route (resolver : MachineResolver)
        (ip : string) :
  resolver ip = None ->
  (forall p h args kwargs,
      find urlspecs p = Some (h, (args, kwargs)) ->
      serve_ (application resolver) (GET ip p) = Uncaught AssertionError)
  /\ (forall p body,
        serve_ (application resolver) (GET ip p) <> Finished body)
  /\ (forall v t,
        is_segment v = true -> In t data_paths ->
        serve_ (application resolver) (GET ip ("/" ++ v ++ "/" ++ t))
        = Uncaught AssertionError)
  /\ status_code (Uncaught AssertionError) = 500.
Proof.
  intros H. split; [|split; [|split]].
  - intros p h args kwargs. exact (serve_unresolved resolver ip p h args kwargs H).
  - intros p body. exact (serve_unresolved_not_finished resolver ip p body H).
  - intros v t Hv Hin.
    apply (serve_unresolved_versioned resolver ip v t H Hv).
    pose proof data_paths_routed as R. rewrite forallb_forall in R.
    exact (R t Hin).
  - reflexivity.
Qed.

(** C10.  Every handler class, hence every registered route, runs
    [prepare] first: the machine of the source address is looked up
    before [get] can write anything, and [get] starts from an empty
    buffer with that machine on the request.  So the routes [/],
    [/<version>], [/<version>/] and [/<version>/meta-data], whose bodies
    are the same for all machines, fail for an address that does not
    resolve. *)
Theorem every_route_resolves_machine_first :
  (forall app req h args kwargs,
      execute app req h args kwargs
      = match machine_resolver app (remote_ip req) with
        | Some m =>
            finish (get h app args kwargs
                        {| request_machine := Some m; write_buffer := [] |})
        | None => Uncaught AssertionError
        end)
  /\ (forall resolver ip v,
        resolver ip = None -> is_segment v = true ->
        Forall (fun p => serve_ (application resolver) (GET ip p)
                         = Uncaught AssertionError)
               ["/"; "/" ++ v; "/" ++ v ++ "/"; "/" ++ v ++ "/meta-data"]%string)
  /\ (forall resolver1 ip1 m1 resolver2 ip2 m2 v,
        resolver1 ip1 = Some m1 -> resolver2 ip2 = Some m2 ->
        is_segment v = true ->
        Forall (fun p => serve_ (application resolver1) (GET ip1 p)
                         = serve_ (application resolver2) (GET ip2 p))
               ["/"; "/" ++ v; "/" ++ v ++ "/"; "/" ++ v ++ "/meta-data"]%string).
Proof.
  split; [|split].
  - intros app req h args kwargs.
    destruct (machine_resolver app (remote_ip req)) as [m|] eqn:E.
    + exact (execute_resolved app req h args kwargs m E).
    + exact (execute_unresolved app req h args kwargs E).
  - intros resolver ip v H Hv. repeat constructor.
    + exact (serve_unresolved resolver ip "/" ApiRootHandler [] [] H eq_refl).
    + exact (serve_unresolved resolver ip _ NullHandler [] [] H
               (find_handler_version v Hv)).
    + exact (serve_unresolved_versioned resolver ip v "" H Hv eq_refl).
    + exact (serve_unresolved_versioned resolver ip v "meta-data" H Hv eq_refl).
  - intros resolver1 ip1 m1 resolver2 ip2 m2 v H1 H2 Hv. repeat constructor.
    + rewrite (serve_root resolver1 ip1 m1 H1), (serve_root resolver2 ip2 m2 H2).
      reflexivity.
    + cbn [append].
      rewrite (serve_version resolver1 ip1 v m1 H1 Hv),
              (serve_version resolver2 ip2 v m2 H2 Hv). reflexivity.
    + etransitivity; [exact (serve_version_slash resolver1 ip1 v m1 H1 Hv)|].
      symmetry. exact (serve_version_slash resolver2 ip2 v m2 H2 Hv).
    + etransitivity; [exact (serve_version_metadata resolver1 ip1 v m1 H1 Hv)|].
      symmetry. exact (serve_version_metadata resolver2 ip2 v m2 H2 Hv).
Qed.

(** *** The leaf handlers *)

(** X1.  For every machine the resolver returns and every version token,
    each leaf of the metadata category returns the field of the machine
    that its handler reads, unchanged: instance-id, instance-type,
    hostname, local-hostname, local-ipv4 and public-ipv4. *)
Theorem leaf_handlers_project (resolver : MachineResolver) (ip v : string)
        (m : Machine) :
  resolver ip = Some m -> is_segment v = true ->
  forall name accessor,
    In (name, accessor) leaf_accessors ->
    serve_ (application resolver) (GET ip ("/" ++ v ++ "/meta-data/" ++ name))
    = Finished (accessor m).
Proof.
  intros H Hv name accessor Hin. unfold leaf_accessors in Hin. cbn [In] in Hin.
  assert (L : forall t h f,
             find versioned t = Some (h, ([], [])) ->
             finish (get h (application resolver) [] []
                         {| request_machine := Some m; write_buffer := [] |})
             = Finished (f m) ->
             serve_ (application resolver)
                    (GET ip (String "/" (v ++ String "/" t)))
             = Finished (f m)).
  { intros t h f Hf Hg.
    rewrite (serve_versioned resolver ip v t h [] [] Hv Hf).
    rewrite (execute_application _ _ _ _ _ _ m H). exact Hg. }
  destruct Hin as [[= <- <-] | Hin];
    [exact (L "meta-data/instance-id" InstanceIdHandler _ eq_refl eq_refl)|].
  destruct Hin as [[= <- <-] | Hin];
    [exact (L "meta-data/instance-type" InstanceTypeHandler _ eq_refl eq_refl)|].
  destruct Hin as [[= <- <-] | Hin];
    [exact (L "meta-data/hostname" InstanceHostnameHandler _ eq_refl eq_refl)|].
  destruct Hin as [[= <- <-] | Hin];
    [exact (L "meta-data/local-hostname" InstanceLocalHostnameHandler _
              eq_refl eq_refl)|].
  destruct Hin as [[= <- <-] | Hin];
    [exact (L "meta-data/local-ipv4" LocalIpv4Handler _ eq_refl eq_refl)|].
  destruct Hin as [[= <- <-] | Hin];
    [exact (L "meta-data/public-ipv4" PublicIpv4Handler _ eq_refl eq_refl)|].
  destruct Hin.
Qed.

(** X2.  [/<version>/user-data], with or without a slash at its end,
    returns the user data of the machine, unchanged. *)
Theorem user_data_verbatim (resolver : MachineResolver) (ip v : string)
        (m : Machine) :
  resolver ip = Some m -> is_segment v = true ->
  serve_ (application resolver) (GET ip ("/" ++ v ++ "/user-data"))
  = Finished (get_userdata m)
  /\ serve_ (application resolver) (GET ip ("/" ++ v ++ "/user-data/"))
     = Finished (get_userdata m).
Proof.
  intros H Hv. split.
  - etransitivity;
      [exact (serve_versioned resolver ip v "user-data" UserDataHandler [] []
                Hv eq_refl)|].
    rewrite (execute_application _ _ _ _ _ _ m H). reflexivity.
  - etransitivity;
      [exact (serve_versioned resolver ip v "user-data/" UserDataHandler [] []
                Hv eq_refl)|].
    rewrite (execute_application _ _ _ _ _ _ m H). reflexivity.
Qed.

(** *** The version token *)

Lemma execute_path (app : Application) (ip p q : string) (h : handler)
      (args : list string) (kwargs : list (string * string)) :
  execute app (GET ip p) h args kwargs = execute app (GET ip q) h args kwargs.
Proof. reflexivity. Qed.

Lemma serve_same_handler (resolver : MachineResolver) (ip p q : string) :
  find urlspecs p = find urlspecs q ->
  serve_ (application resolver) (GET ip p)
  = serve_ (application resolver) (GET ip q).
Proof.
  intros E. unfold serve. cbn [handlers application path GET]. rewrite E.
  destruct (find urlspecs q) as [[h [args kwargs]]|]; reflexivity.
Qed.

(** X3.  The version token never influences the response: for the same
    caller, two paths that differ only in their version token, whatever
    follows it, end the same way. *)
Theorem version_token_irrelevant (resolver : MachineResolver)
        (ip v1 v2 t : string) :
  is_segment v1 = true -> is_segment v2 = true ->
  serve_ (application resolver) (GET ip ("/" ++ v1))
  = serve_ (application resolver) (GET ip ("/" ++ v2))
  /\ serve_ (application resolver) (GET ip ("/" ++ v1 ++ "/" ++ t))
     = serve_ (application resolver) (GET ip ("/" ++ v2 ++ "/" ++ t)).
Proof.
  intros H1 H2. split; apply serve_same_handler.
  - cbn [append].
    rewrite (find_handler_version v1 H1), (find_handler_version v2 H2).
    reflexivity.
  - etransitivity; [exact (find_handler_versioned v1 t H1)|].
    symmetry. exact (find_handler_versioned v2 t H2).
Qed.

(** *** Formats of a key *)

Lemma getitem_In {V} (d : dict V) (k : string) :
  In k (keys d) -> exists v, getitem d k = Some v /\ In (k, v) d.
Proof.
  induction d as [|[k' v'] d IH]; cbn [keys map In getitem fst]; [intros []|].
  destruct (String.eqb_spec k' k) as [-> | Hne].
  - intros _. exists v'. split; [reflexivity | left; reflexivity].
  - intros [E | Hin]; [contradiction|].
    destruct (IH Hin) as [v [Hg Hi]]. exists v. split; [exact Hg | right; exact Hi].
Qed.

Lemma getitem_not_In {V} (d : dict V) (k : string) :
  ~ In k (keys d) -> getitem d k = None.
Proof.
  induction d as [|[k' v'] d IH]; cbn [keys map In getitem fst]; [reflexivity|].
  intros Hn. destruct (String.eqb_spec k' k) as [-> | Hne].
  - exfalso. apply Hn. left. reflexivity.
  - apply IH. intros Hin. apply Hn. right. exact Hin.
Qed.

(** X4.  For a key index in range, the request for a format returns the
    material of an entry of that key when the name that the path segment
    decodes to is one of the format names of the key, and otherwise ends in
    an uncaught [KeyError] for that name. *)
Theorem fetch_listed_formats (resolver : MachineResolver)
        (ip v d f name : string) (m : Machine) (i : nat)
        (formats : dict string) :
  resolver ip = Some m -> is_segment v = true ->
  is_digits d = true -> int d = Some i ->
  nth_error (get_keys m) i = Some (name, formats) ->
  is_segment f = true ->
  (In (url_unescape f) (keys formats) ->
   exists material,
     In (url_unescape f, material) formats
     /\ serve_ (application resolver)
               (GET ip ("/" ++ v ++ "/meta-data/public-keys/" ++ d ++ "/" ++ f))
        = Finished material)
  /\ (~ In (url_unescape f) (keys formats) ->
      serve_ (application resolver)
             (GET ip ("/" ++ v ++ "/meta-data/public-keys/" ++ d ++ "/" ++ f))
      = Uncaught (KeyError (url_unescape f))).
Proof.
  intros H Hv Hd Hi Hk Hf.
  assert (Hval : nth_error (values (get_keys m)) i = Some formats).
  { unfold values. rewrite nth_error_map, Hk. reflexivity. }
  pose proof (serve_key_format resolver ip v d f m i H Hv Hd Hi Hf) as E.
  rewrite Hval in E. split.
  - intros Hin. destruct (getitem_In formats _ Hin) as [material [Hg Hm]].
    exists material. split; [exact Hm|]. rewrite Hg in E. exact E.
  - intros Hn. rewrite (getitem_not_In formats _ Hn) in E. exact E.
Qed.

(** *** The slash at the end of a path *)

Lemma first_groups_opt_end_empty (a : ascii) :
  first_groups [Re.NChars (Re.Chr a) Re.Optional; Re.NEnd] "" = Some [].
Proof. reflexivity. Qed.

(** [.../public-keys/<number>] goes to the route with the number alone. *)
Lemma find_handler_key_bare (d : string) :
  is_digits d = true ->
  find public_keys_specs (String "/" d)
  = Some (PublicKeysHandler, ([], [("number", d)])).
Proof.
  intros Hd. pose proof Hd as Hd'. unfold is_digits in Hd'.
  apply andb_true_iff in Hd' as [Hne Hall].
  pose proof (at_end_digits d "" Hd) as Hend. rewrite append_empty in Hend.
  unfold public_keys_specs.
  rewrite find_handler_cons. cbn [regex handler_class].
  rewrite first_groups_opt_hit, first_groups_end_slash.
  rewrite first_groups_end, Hend.
  rewrite find_handler_cons. cbn [regex handler_class].
  rewrite first_groups_hit.
  rewrite <- (append_empty d) at 1.
  rewrite (first_groups_group_plus is_digit _ Re.Digit _ d ""
             (fun c H => H) Hne Hall I dead_digit_slash_end).
  rewrite first_groups_opt_end_empty.
  cbn [option_map]. unfold arguments. cbn [existsb fst snd orb flat_map app].
  rewrite (url_unescape_plain d (digits_plain d Hd)). reflexivity.
Qed.

(** X5.  The slash at the end is optional on the placement, public-keys,
    key and user-data routes: with and without it the request ends the same
    way.  It is not optional after the version token and after [meta-data],
    where the path without it is the empty presence probe and the path with
    it a listing. *)
Theorem optional_trailing_slash (resolver : MachineResolver) (ip v : string) :
  is_segment v = true ->
  serve_ (application resolver) (GET ip ("/" ++ v ++ "/meta-data/placement"))
  = serve_ (application resolver) (GET ip ("/" ++ v ++ "/meta-data/placement/"))
  /\ serve_ (application resolver)
            (GET ip ("/" ++ v ++ "/meta-data/public-keys"))
     = serve_ (application resolver)
              (GET ip ("/" ++ v ++ "/meta-data/public-keys/"))
  /\ serve_ (application resolver) (GET ip ("/" ++ v ++ "/user-data"))
     = serve_ (application resolver) (GET ip ("/" ++ v ++ "/user-data/"))
  /\ (forall d,
         is_digits d = true ->
         serve_ (application resolver)
                (GET ip ("/" ++ v ++ "/meta-data/public-keys/" ++ d))
         = serve_ (application resolver)
                  (GET ip ("/" ++ v ++ "/meta-data/public-keys/" ++ d ++ "/")))
  /\ (forall m,
         resolver ip = Some m ->
         serve_ (application resolver) (GET ip ("/" ++ v))
         <> serve_ (application resolver) (GET ip ("/" ++ v ++ "/"))
         /\ serve_ (application resolver) (GET ip ("/" ++ v ++ "/meta-data"))
            <> serve_ (application resolver)
                      (GET ip ("/" ++ v ++ "/meta-data/"))).
Proof.
  intros Hv.
  assert (L : forall t1 t2,
             find versioned t1 = find versioned t2 ->
             serve_ (application resolver)
                    (GET ip (String "/" (v ++ String "/" t1)))
             = serve_ (application resolver)
                      (GET ip (String "/" (v ++ String "/" t2)))).
  { intros t1 t2 E. apply serve_same_handler.
    rewrite (find_handler_versioned v t1 Hv), (find_handler_versioned v t2 Hv).
    exact E. }
  split; [exact (L "meta-data/placement" "meta-data/placement/" eq_refl)|].
  split; [exact (L "meta-data/public-keys" "meta-data/public-keys/" eq_refl)|].
  split; [exact (L "user-data" "user-data/" eq_refl)|].
  split.
  - intros d Hd. apply serve_same_handler.
    etransitivity;
      [exact (find_handler_public_keys v (String "/" d) Hv)|].
    rewrite (find_handler_key_bare d Hd). symmetry.
    etransitivity;
      [exact (find_handler_public_keys v (String "/" (d ++ "/")) Hv)|].
    exact (find_handler_key d Hd).
  - intros m H.
    pose proof (serve_version resolver ip v m H Hv) as E1.
    pose proof (serve_version_slash resolver ip v m H Hv) as E2.
    pose proof (serve_version_metadata resolver ip v m H Hv) as E3.
    pose proof (serve_listing resolver ip v m H Hv) as E4.
    cbn [append] in *. rewrite E1, E2, E3, E4.
    split; intros E; vm_compute in E; discriminate E.
Qed.

(** *** Paths that no route takes *)

(** X6.  Nothing is served below a leaf: a path that goes on after the name
    of a leaf with a slash, whatever follows, matches no route and is
    answered 404 for every caller. *)
Theorem nothing_below_a_leaf (resolver : MachineResolver)
        (ip v name x : string) :
  is_segment v = true ->
  In name (map fst leaf_accessors) ->
  serve_ (application resolver)
         (GET ip ("/" ++ v ++ "/meta-data/" ++ name ++ "/" ++ x))
  = NoRoute.
Proof.
  intros Hv Hin.
  assert (L : forall lit,
             advance_all lit versioned = Some [] ->
             serve_ (application resolver)
                    (GET ip (String "/" (v ++ String "/" (lit ++ x))))
             = NoRoute).
  { intros lit E. unfold serve. cbn [handlers application path GET].
    rewrite (find_handler_versioned v (lit ++ x) Hv).
    rewrite (advance_all_sound lit x versioned [] E). reflexivity. }
  cbn [map fst leaf_accessors In] in Hin.
  destruct Hin as [<- | Hin];
    [apply (L "meta-data/instance-id/"); vm_compute; reflexivity|].
  destruct Hin as [<- | Hin];
    [apply (L "meta-data/instance-type/"); vm_compute; reflexivity|].
  destruct Hin as [<- | Hin];
    [apply (L "meta-data/hostname/"); vm_compute; reflexivity|].
  destruct Hin as [<- | Hin];
    [apply (L "meta-data/local-hostname/"); vm_compute; reflexivity|].
  destruct Hin as [<- | Hin];
    [apply (L "meta-data/local-ipv4/"); vm_compute; reflexivity|].
  destruct Hin as [<- | Hin];
    [apply (L "meta-data/public-ipv4/"); vm_compute; reflexivity|].
  destruct Hin.
Qed.

Lemma first_groups_plus_stops (k : Re.cclass) (ns : Re.regex) (s : string) :
  stops k s -> first_groups (Re.NChars k Re.OneOrMore :: ns) s = None.
Proof.
  intros Hs. unfold first_groups, Re.match_.
  cbn [Re.match_seq Re.match_node Re.chars].
  rewrite (chars_plus_stops k s Hs). reflexivity.
Qed.

Lemma find_handler_no_token (specs : list URLSpec) (t : string) :
  forallb needs_token specs = true -> find specs (String "/" t) = None.
Proof.
  induction specs as [|spec specs IH]; cbn [forallb]; [reflexivity|].
  intros H. apply andb_true_iff in H as [Hs Hr].
  rewrite find_handler_cons, (IH Hr). unfold needs_token in Hs.
  destruct (regex spec) as [|n ns]; [discriminate|].
  destruct n as [k q|name body|].
  - rewrite (is_not_slash_plus_inv _ Hs).
    rewrite (first_groups_plus_stops _ ns (String "/" t) (stops_slash t)).
    reflexivity.
  - discriminate.
  - rewrite first_groups_end_slash. reflexivity.
Qed.

(** X7.  The version token cannot be empty: a path that starts with two
    slashes matches no route, whatever follows. *)
Theorem empty_version_not_routed (resolver : MachineResolver) (ip t : string) :
  serve_ (application resolver) (GET ip ("//" ++ t)) = NoRoute.
Proof.
  unfold serve. cbn [handlers application path GET append].
  rewrite (advance_sound "/" (String "/" t) urlspecs after_slash eq_refl).
  rewrite (find_handler_no_token after_slash t eq_refl). reflexivity.
Qed.

(** *** The listing under changes of the table *)

Lemma leaves_rev (specs : list URLSpec) : leaves (rev specs) = rev (leaves specs).
Proof.
  induction specs as [|spec specs IH]; [reflexivity|].
  cbn [rev]. rewrite leaves_app, IH.
  change (spec :: specs) with ([spec] ++ specs)%list.
  rewrite (leaves_app [spec] specs), rev_app_distr. f_equal.
  cbn [leaves flat_map]. rewrite app_nil_r.
  destruct (leaf (regex_pattern spec)); reflexivity.
Qed.

Lemma leaves_outside (spec : URLSpec) :
  under_metadata spec = false -> leaves [spec] = [].
Proof.
  intros H. cbn [leaves flat_map]. unfold leaf.
  unfold under_metadata in H. rewrite H. reflexivity.
Qed.

(** X8.  The listing follows the table: for a table in the reverse order
    the listing has the same lines in the reverse order, and a route whose
    pattern is outside the metadata category (or is the listing route) can
    be registered anywhere in the table without changing the listing. *)
Theorem listing_follows_table (app1 app2 : Application)
        (req1 req2 : HTTPRequest) (m1 m2 : Machine) :
  machine_resolver app1 (remote_ip req1) = Some m1 ->
  machine_resolver app2 (remote_ip req2) = Some m2 ->
  (handlers app2 = rev (handlers app1) ->
   exists lines,
     execute app1 req1 MetadataHandler [] [] = Finished (join nl lines)
     /\ execute app2 req2 MetadataHandler [] [] = Finished (join nl (rev lines)))
  /\ (forall before spec after,
         under_metadata spec = false ->
         handlers app1 = (before ++ after)%list ->
         handlers app2 = (before ++ spec :: after)%list ->
         execute app2 req2 MetadataHandler [] []
         = execute app1 req1 MetadataHandler [] []).
Proof.
  intros H1 H2.
  rewrite (execute_listing app1 req1 m1 H1), (execute_listing app2 req2 m2 H2).
  split.
  - intros E. exists (leaves (handlers app1)). split; [reflexivity|].
    rewrite E, leaves_rev. reflexivity.
  - intros before spec after Hs E1 E2. rewrite E1, E2.
    change (spec :: after) with ([spec] ++ after)%list.
    rewrite !leaves_app, (leaves_outside spec Hs). reflexivity.
Qed.

(** *** The groups of a match *)

Lemma match_seq_cons_inv (n : Re.node) (ns : Re.regex) (s : string)
      (m : Re.state) :
  In m (Re.match_seq (n :: ns) s) ->
  exists m1 m2,
    In m1 (Re.match_node n s)
    /\ In m2 (Re.match_seq ns (Re.rest m1))
    /\ m = Re.State (Re.groups m1 ++ Re.groups m2)
                    (Re.matched m1 ++ Re.matched m2) (Re.rest m2).
Proof.
  cbn [Re.match_seq]. intros H. apply in_flat_map in H as [m1 [H1 H]].
  unfold Re.then_ in H. apply in_map_iff in H as [m2 [E H2]].
  exists m1, m2. repeat split; [exact H1 | exact H2 | symmetry; exact E].
Qed.

Lemma match_node_chars_groups (k : Re.cclass) (q : Re.quant) (s : string)
      (m : Re.state) :
  In m (Re.match_node (Re.NChars k q) s) -> Re.groups m = [].
Proof.
  cbn [Re.match_node]. intros H. apply in_map_iff in H as [xr [<- _]].
  reflexivity.
Qed.

Lemma match_node_end_groups (s : string) (m : Re.state) :
  In m (Re.match_node Re.NEnd s) -> Re.groups m = [].
Proof.
  cbn [Re.match_node]. destruct (Re.at_end s); [|intros []].
  intros [<- | []]. reflexivity.
Qed.

Lemma match_seq_no_groups (ns : Re.regex) :
  no_groups ns = true ->
  forall s m, In m (Re.match_seq ns s) -> Re.groups m = [].
Proof.
  induction ns as [|n ns IH]; intros Hn s m Hm.
  - destruct Hm as [<- | []]. reflexivity.
  - cbn [no_groups forallb] in Hn. apply andb_true_iff in Hn as [Hh Ht].
    destruct (match_seq_cons_inv n ns s m Hm) as [m1 [m2 [H1 [H2 ->]]]].
    cbn [Re.groups]. rewrite (IH Ht _ m2 H2), app_nil_r.
    destruct n as [k q|name body|]; [|discriminate|].
    + exact (match_node_chars_groups k q s m1 H1).
    + exact (match_node_end_groups s m1 H1).
Qed.

(** A match holds one group for each group of its pattern, in order. *)
Lemma match_seq_top_groups (ns : Re.regex) :
  flat ns = true ->
  forall s m, In m (Re.match_seq ns s) ->
              Forall2 group_of (Re.groups m) (top_groups ns).
Proof.
  induction ns as [|n ns IH]; intros Hf s m Hm.
  - destruct Hm as [<- | []]. constructor.
  - cbn [flat forallb] in Hf. apply andb_true_iff in Hf as [Hh Ht].
    destruct (match_seq_cons_inv n ns s m Hm) as [m1 [m2 [H1 [H2 ->]]]].
    cbn [Re.groups]. pose proof (IH Ht _ m2 H2) as F.
    destruct n as [k q|name body|].
    + rewrite (match_node_chars_groups k q s m1 H1). exact F.
    + rewrite match_group_body in H1.
      apply in_map_iff in H1 as [m0 [<- H0]]. cbn [Re.groups].
      rewrite (match_seq_no_groups body Hh s m0 H0).
      cbn [top_groups flat_map app]. constructor; [|exact F].
      split; [reflexivity|]. exists s, m0. split; [exact H0 | reflexivity].
    + rewrite (match_node_end_groups s m1 H1). exact F.
Qed.

Lemma chars_plus_consumed (k : Re.cclass) (s : string) (xr : string * string) :
  In xr (Re.chars_plus k s) ->
  nonempty (fst xr) = true /\ all_chars (Re.accepts k) (fst xr) = true.
Proof.
  revert xr. induction s as [|c s IH]; intros xr; cbn [Re.chars_plus];
    [intros []|].
  destruct (Re.accepts k c) eqn:E; [|intros []].
  intros H. apply in_app_or in H as [H | [<- | []]].
  - apply in_map_iff in H as [xr' [<- H]]. cbn [fst nonempty all_chars].
    rewrite E. split; [reflexivity|]. exact (proj2 (IH xr' H)).
  - cbn [fst nonempty all_chars]. rewrite E. split; reflexivity.
Qed.

Lemma match_plus_consumed (k : Re.cclass) (s : string) (m : Re.state) :
  In m (Re.match_node (Re.NChars k Re.OneOrMore) s) ->
  nonempty (Re.matched m) = true
  /\ all_chars (Re.accepts k) (Re.matched m) = true.
Proof.
  cbn [Re.match_node Re.chars]. intros H.
  apply in_map_iff in H as [xr [<- H]]. cbn [Re.matched].
  exact (chars_plus_consumed k s xr H).
Qed.

(** The text of a group [\d+] is a run of digits. *)
Lemma digit_plus_matched (body : Re.regex) (s : string) (m : Re.state) :
  is_digit_plus body = true ->
  In m (Re.match_seq body s) -> is_digits (Re.matched m) = true.
Proof.
  intros Hb Hm.
  destruct body as [|[[a|cs|] [| |]|name b|] [|n ns]]; try discriminate Hb.
  rewrite match_seq_single in Hm. apply in_map_iff in Hm as [m1 [<- H1]].
  cbn [Re.matched]. rewrite append_empty.
  destruct (match_plus_consumed Re.Digit s m1 H1) as [Hne Hall].
  unfold is_digits. rewrite Hne. exact Hall.
Qed.

Lemma hd_error_In {A} (l : list A) (x : A) : hd_error l = Some x -> In x l.
Proof. destruct l; [discriminate|]. intros [= ->]. left. reflexivity. Qed.

(** *** Every request ends in a known way *)

Lemma run_key (d : string) (n : nat) (m : Machine) :
  int d = Some n ->
  finish (PublicKeysHandler_get (Some d) None
            {| request_machine := Some m; write_buffer := [] |})
  = match nth_error (values (get_keys m)) n with
    | Some key => Finished (join nl (keys key))
    | None => Uncaught IndexError
    end.
Proof.
  intros Hn. unfold PublicKeysHandler_get, bind at 1. rewrite Hn.
  unfold list_index, the_machine, bind, ret. cbn [request_machine].
  destruct (nth_error (values (get_keys m)) n); reflexivity.
Qed.

Lemma run_key_format (d f : string) (n : nat) (m : Machine) :
  int d = Some n ->
  finish (PublicKeysHandler_get (Some d) (Some f)
            {| request_machine := Some m; write_buffer := [] |})
  = match nth_error (values (get_keys m)) n with
    | Some key =>
        match getitem key f with
        | Some material => Finished material
        | None => Uncaught (KeyError f)
        end
    | None => Uncaught IndexError
    end.
Proof.
  intros Hn. unfold PublicKeysHandler_get, bind at 1. rewrite Hn.
  unfold list_index, dict_index, the_machine, bind, ret.
  cbn [request_machine].
  destruct (nth_error (values (get_keys m)) n) as [key|]; [|reflexivity].
  cbv beta iota. destruct (getitem key f); reflexivity.
Qed.

Lemma run_placement (what : option string) (m : Machine) :
  exists body,
    finish (PlacementAvailabilityZoneHandler_get what
              {| request_machine := Some m; write_buffer := [] |})
    = Finished body.
Proof.
  unfold PlacementAvailabilityZoneHandler_get.
  repeat match goal with
         | |- context [match ?x with _ => _ end] => is_var x; destruct x
         end;
    eexists; reflexivity.
Qed.

Lemma fits_urlspecs : forallb fits urlspecs = true.
Proof. vm_compute. reflexivity. Qed.

(** A route whose groups fit its handler never fails in the call of [get]
    or in [int]: once the machine is resolved the request finishes or ends
    in one of the two faults of the key lookups. *)
Lemma execute_fits (app : Application) (req : HTTPRequest) (spec : URLSpec)
      (p : string) (mt : Re.state) (m : Machine) :
  fits spec = true ->
  Re.match_ (regex spec) p = Some mt ->
  machine_resolver app (remote_ip req) = Some m ->
  key_faults_only
    (execute app req (handler_class spec)
             (fst (arguments url_unescape (Re.groups mt)))
             (snd (arguments url_unescape (Re.groups mt)))).
Proof.
  intros Hfit Hm H. unfold fits in Hfit.
  apply andb_true_iff in Hfit as [Hflat Hfit].
  pose proof (match_seq_top_groups (regex spec) Hflat p mt
                (hd_error_In _ _ Hm)) as F.
  destruct (top_groups (regex spec)) as [|[n1 b1] tgs].
  - inversion F as [E|]. unfold arguments. cbn [existsb map flat_map fst snd].
    destruct (handler_class spec) eqn:Eh;
      try (rewrite (execute_resolved app req _ [] [] m H); exact I).
    + rewrite (execute_listing app req m H). exact I.
  - destruct (handler_class spec) eqn:Eh; try discriminate Hfit.
    + (* placement *)
      destruct n1 as [n1|]; [discriminate Hfit|].
      destruct tgs as [|tg tgs]; [|discriminate Hfit].
      inversion F as [|g tg gs tgs' [Hname _] F' Eg Etg].
      inversion F' as [E|]. destruct g as [gn gt]. cbn [fst] in Hname. subst gn.
      unfold arguments. cbn [existsb map flat_map fst snd orb].
      rewrite (execute_resolved app req _ _ _ m H).
      change (get PlacementAvailabilityZoneHandler app [url_unescape gt] [])
        with (PlacementAvailabilityZoneHandler_get (Some (url_unescape gt))).
      destruct (run_placement (Some (url_unescape gt)) m) as [body ->].
      exact I.
    + (* public keys *)
      destruct n1 as [n1|]; [|discriminate Hfit].
      destruct tgs as [|[[n2|] b2] [|tg tgs]]; try discriminate Hfit.
      * apply andb_true_iff in Hfit as [Hn1 Hb1].
        apply String.eqb_eq in Hn1. subst n1.
        inversion F as [|g tg gs tgs' [Hname [s0 [m0 [H0 Ht]]]] F' Eg Etg].
        inversion F' as [E|]. destruct g as [gn gt].
        cbn [fst snd] in Hname, H0, Ht. subst gn.
        pose proof (digit_plus_matched b1 s0 m0 Hb1 H0) as Hd.
        rewrite Ht in Hd.
        unfold arguments. cbn [existsb map flat_map fst snd orb List.app].
        rewrite (url_unescape_plain gt (digits_plain gt Hd)).
        rewrite (execute_resolved app req _ _ _ m H).
        change (get PublicKeysHandler app [] [("number", gt)])
          with (PublicKeysHandler_get (Some gt) None).
        destruct (digits_int gt Hd) as [n Hn].
        rewrite (run_key gt n m Hn).
        destruct (nth_error (values (get_keys m)) n); exact I.
      * apply andb_true_iff in Hfit as [Hfit Hn2].
        apply andb_true_iff in Hfit as [Hn1 Hb1].
        apply String.eqb_eq in Hn1, Hn2. subst n1 n2.
        inversion F as [|g tg gs tgs' [Hname [s0 [m0 [H0 Ht]]]] F' Eg Etg].
        inversion F' as [|g' tg' gs' tgs'' [Hname' _] F'' Eg' Etg'].
        inversion F'' as [E|]. destruct g as [gn gt]. destruct g' as [gn' gt'].
        cbn [fst snd] in Hname, Hname', H0, Ht. subst gn gn'.
        pose proof (digit_plus_matched b1 s0 m0 Hb1 H0) as Hd.
        rewrite Ht in Hd.
        unfold arguments. cbn [existsb map flat_map fst snd orb List.app].
        rewrite (url_unescape_plain gt (digits_plain gt Hd)).
        rewrite (execute_resolved app req _ _ _ m H).
        change (get PublicKeysHandler app []
                    [("number", gt); ("key_format", url_unescape gt')])
          with (PublicKeysHandler_get (Some gt) (Some (url_unescape gt'))).
        destruct (digits_int gt Hd) as [n Hn].
        rewrite (run_key_format gt (url_unescape gt') n m Hn).
        destruct (nth_error (values (get_keys m)) n) as [key|]; [|exact I].
        destruct (getitem key (url_unescape gt')); exact I.
Qed.

(** X9.  Every request ends in a known way, whatever its path: a finished
    response, no route, the failed assertion of [prepare] exactly when the
    address does not resolve, or, for a resolved address, the [IndexError]
    or [KeyError] of a key lookup.  No request ends in a [TypeError] from
    the call of [get], a [ValueError] from [int] or an [AttributeError] from
    a missing machine. *)
Theorem requests_end_in_known_ways (resolver : MachineResolver)
        (ip p : string) :
  match serve_ (application resolver) (GET ip p) with
  | Finished _ => resolver ip <> None
  | NoRoute => True
  | Uncaught AssertionError => resolver ip = None
  | Uncaught IndexError => resolver ip <> None
  | Uncaught (KeyError _) => resolver ip <> None
  | Uncaught _ => False
  end.
Proof.
  unfold serve. cbn [handlers application path GET].
  destruct (find urlspecs p) as [[h args]|] eqn:Ef; [|exact I].
  destruct (find_handler_first urlspecs p h args Ef)
    as [before [spec [after [mt [Es [_ [Hm [-> ->]]]]]]]].
  assert (Hin : In spec urlspecs).
  { rewrite Es. apply in_or_app. right. left. reflexivity. }
  pose proof fits_urlspecs as Hfits. rewrite forallb_forall in Hfits.
  pose proof (Hfits spec Hin) as Hfit.
  destruct (arguments url_unescape (Re.groups mt)) as [args kwargs] eqn:Ea.
  destruct (resolver ip) as [m|] eqn:H.
  - pose proof (execute_fits (application resolver) (GET ip p) spec p mt m
                  Hfit Hm H) as K.
    rewrite Ea in K. cbn [fst snd] in K.
    destruct (execute (application resolver) (GET ip p) (handler_class spec)
                      args kwargs) as [body|e|];
      [discriminate | | exact I].
    destruct e; try contradiction; discriminate.
  - rewrite (execute_unresolved (application resolver) (GET ip p) _ args kwargs H).
    reflexivity.
Qed.

(** *** The lines of the listing *)

Lemma not_slash_body_matched (s : string) (m : Re.state) :
  In m (Re.match_seq [Re.NChars (Re.NotIn ["/"%char]) Re.OneOrMore;
                      Re.NChars (Re.Chr "/") Re.Optional] s) ->
  exists x,
    nonempty x = true
    /\ all_chars (fun c => negb (Ascii.eqb c "/")) x = true
    /\ (Re.matched m = x \/ Re.matched m = (x ++ "/")%string).
Proof.
  intros Hm.
  destruct (match_seq_cons_inv _ _ s m Hm) as [m1 [m2 [H1 [H2 ->]]]].
  destruct (match_plus_consumed _ s m1 H1) as [Hne Hall].
  exists (Re.matched m1). split; [exact Hne|]. split.
  - apply (all_chars_impl (Re.accepts (Re.NotIn ["/"%char]))); [|exact Hall].
    intros c Hc. cbn [Re.accepts existsb] in Hc.
    rewrite orb_false_r in Hc. exact Hc.
  - rewrite match_seq_single in H2. apply in_map_iff in H2 as [m3 [E3 H3]].
    cbn [Re.match_node Re.chars] in H3.
    apply in_map_iff in H3 as [xr [Exr Hxr]].
    assert (Hm2 : Re.matched m2 = fst xr).
    { rewrite <- E3, <- Exr. cbn [Re.matched]. apply append_empty. }
    cbn [Re.matched]. rewrite Hm2.
    apply in_app_or in Hxr as [Hxr | Hxr].
    + unfold Re.chars_once in Hxr.
      destruct (Re.rest m1) as [|c r]; [destruct Hxr|].
      cbn [Re.accepts] in Hxr.
      destruct (Ascii.eqb "/" c) eqn:Ec; [|destruct Hxr].
      apply Ascii.eqb_eq in Ec. subst c.
      destruct Hxr as [<- | []]. right. reflexivity.
    + destruct Hxr as [<- | []]. left. apply append_empty.
Qed.

Lemma leaf_is_component (pattern name : string) :
  leaf pattern = Some name ->
  exists x,
    nonempty x = true
    /\ all_chars (fun c => negb (Ascii.eqb c "/")) x = true
    /\ (name = x \/ name = (x ++ "/")%string).
Proof.
  unfold leaf.
  destruct (contains "/meta-data/" pattern
            && negb (endswith pattern "/meta-data/$")); [|discriminate].
  destruct (Re.compile listing_pattern) as [r|] eqn:E; [|discriminate].
  vm_compute in E. injection E as <-.
  match goal with
  | |- context [Re.search ?r pattern] => set (lr := r)
  end.
  destruct (Re.search lr pattern) as [mt|] eqn:Es; [|discriminate].
  destruct (search_found lr pattern mt Es) as [s' Hmt]. intros Hg.
  assert (Hflat : flat lr = true) by reflexivity.
  pose proof (match_seq_top_groups lr Hflat s' mt Hmt) as F.
  cbn [top_groups flat_map lr app] in F.
  inversion F as [|g tg gs tgs [_ [s0 [m0 [H0 Ht]]]] F' Eg Etg].
  inversion F' as [E|]. subst gs.
  unfold Re.group in Hg. rewrite <- Eg in Hg. cbn [pred nth_error option_map] in Hg.
  injection Hg as <-. rewrite <- Ht. cbn [snd] in H0.
  exact (not_slash_body_matched s0 m0 H0).
Qed.

(** X10.  Whatever the route table, every line of the listing is a single
    path component: a non-empty text without a slash, or such a text
    followed by one slash.  The listing never shows a nested path. *)
Theorem listing_lines_are_components (app : Application) (req : HTTPRequest)
        (m : Machine) :
  machine_resolver app (remote_ip req) = Some m ->
  exists lines,
    execute app req MetadataHandler [] [] = Finished (join nl lines)
    /\ Forall (fun line =>
                 exists x,
                   nonempty x = true
                   /\ all_chars (fun c => negb (Ascii.eqb c "/")) x = true
                   /\ (line = x \/ line = (x ++ "/")%string))
              lines.
Proof.
  intros H. exists (leaves (handlers app)).
  split; [exact (execute_listing app req m H)|].
  apply Forall_forall. intros line Hin. unfold leaves in Hin.
  apply in_flat_map in Hin as [spec [_ Hl]].
  destruct (leaf (regex_pattern spec)) as [name|] eqn:E; [|destruct Hl].
  destruct Hl as [<- | []]. exact (leaf_is_component _ _ E).
Qed.

(** X11.  The listing of the registered table only shows paths that exist:
    every line of the listing served at [/<version>/meta-data/], put after
    [/<version>/meta-data/], is a path that a route takes and that finishes
    for the same caller. *)
Theorem listing_lines_are_routed (resolver : MachineResolver) (ip v : string)
        (m : Machine) :
  resolver ip = Some m -> is_segment v = true ->
  exists lines,
    serve_ (application resolver) (GET ip ("/" ++ v ++ "/meta-data/"))
    = Finished (join nl lines)
    /\ forall line,
         In line lines ->
         exists body,
           serve_ (application resolver)
                  (GET ip ("/" ++ v ++ "/meta-data/" ++ line))
           = Finished body.
Proof.
  intros H Hv. exists (leaves urlspecs).
  split; [exact (serve_listing resolver ip v m H Hv)|].
  assert (E : leaves urlspecs
              = ["instance-id"; "instance-type"; "hostname"; "local-hostname";
                 "local-ipv4"; "public-ipv4"; "placement/"; "public-keys/"])
    by (vm_compute; reflexivity).
  rewrite E. clear E.
  assert (L : forall t h body,
             find versioned t = Some (h, ([], [])) ->
             finish (get h (application resolver) [] []
                         {| request_machine := Some m; write_buffer := [] |})
             = Finished body ->
             exists body,
               serve_ (application resolver)
                      (GET ip (String "/" (v ++ String "/" t)))
               = Finished body).
  { intros t h body Hf Hg. exists body.
    rewrite (serve_versioned resolver ip v t h [] [] Hv Hf).
    rewrite (execute_application _ _ _ _ _ _ m H). exact Hg. }
  intros line Hin. cbn [In] in Hin.
  destruct Hin as [<- | Hin];
    [exact (L "meta-data/instance-id" InstanceIdHandler _ eq_refl eq_refl)|].
  destruct Hin as [<- | Hin];
    [exact (L "meta-data/instance-type" InstanceTypeHandler _ eq_refl eq_refl)|].
  destruct Hin as [<- | Hin];
    [exact (L "meta-data/hostname" InstanceHostnameHandler _ eq_refl eq_refl)|].
  destruct Hin as [<- | Hin];
    [exact (L "meta-data/local-hostname" InstanceLocalHostnameHandler _
              eq_refl eq_refl)|].
  destruct Hin as [<- | Hin];
    [exact (L "meta-data/local-ipv4" LocalIpv4Handler _ eq_refl eq_refl)|].
  destruct Hin as [<- | Hin];
    [exact (L "meta-data/public-ipv4" PublicIpv4Handler _ eq_refl eq_refl)|].
  destruct Hin as [<- | Hin];
    [exact (L "meta-data/placement/" PlacementAvailabilityZoneHandler _
              eq_refl eq_refl)|].
  destruct Hin as [<- | Hin];
    [exact (L "meta-data/public-keys/" PublicKeysHandler _ eq_refl eq_refl)|].
  destruct Hin.
Qed.

End Dispatch.

(** ** The example of the specification, served *)

(** C8 at the example. *)
Lemma root_lists_versions_witness :
  example_resolver "192.168.122.10" = Some example_machine
  /\ serve unquote (application example_resolver) (GET "192.168.122.10" "/")
     = Finished
         (join nl ["1.0"; "2007-01-19"; "2007-03-01"; "2007-08-29";
                   "2007-10-10"; "2007-12-15"; "2008-02-01"; "2008-09-01";
                   "2009-04-04"; "2011-01-01"; "2011-05-01"; "2012-01-12";
                   "latest"]).
Proof.
  split; [reflexivity|].
  apply (root_lists_versions unquote example_resolver "192.168.122.10"
           example_machine).
  reflexivity.
Defined.

(** C9 at the version token [latest]. *)
Lemma version_root_lists_apis_witness :
  is_segment "latest" = true
  /\ serve unquote (application example_resolver)
           (GET "192.168.122.10" "/latest/")
     = Finished ("meta-data" ++ nl ++ "user-data").
Proof.
  split; [reflexivity|].
  apply (version_root_lists_apis unquote example_resolver "192.168.122.10"
           "latest" example_machine); reflexivity.
Defined.

(** C7 at a token that is not a published version. *)
Lemma version_token_not_validated_witness :
  ~ In "9999-99-99" versions
  /\ is_segment "9999-99-99" = true
  /\ serve unquote (application example_resolver)
           (GET "192.168.122.10" "/9999-99-99") = Finished ""
  /\ serve unquote (application example_resolver)
           (GET "192.168.122.10" "/9999-99-99/meta-data") = Finished "".
Proof.
  split; [|split; [reflexivity|]].
  - unfold versions. cbn [In]. intros H.
    repeat (destruct H as [H | H]; [discriminate H|]). exact H.
  - pose proof (version_token_not_validated unquote example_resolver
                  "192.168.122.10" "9999-99-99" example_machine
                  eq_refl eq_refl) as [H1 [H2 _]].
    split; [exact H1 | exact H2].
Defined.

(** C6 at the example, whose zone is [zone-a]. *)
Lemma placement_hint_and_zone_witness :
  serve unquote (application example_resolver)
        (GET "192.168.122.10" "/latest/meta-data/placement/")
  = Finished "availability-zone"
  /\ serve unquote (application example_resolver)
           (GET "192.168.122.10" "/latest/meta-data/placement/availability-zone")
     = Finished "zone-a".
Proof.
  pose proof (placement_hint_and_zone unquote unquote_plain example_resolver
                "192.168.122.10" "latest" example_machine
                eq_refl eq_refl) as [H1 [H2 _]].
  split; [exact H1 | exact H2].
Defined.

(** C3 at the example of the specification. *)
Lemma public_keys_protocol_witness :
  serve unquote (application example_resolver)
        (GET "192.168.122.10" "/latest/meta-data/public-keys/")
  = Finished "0=id_rsa"
  /\ serve unquote (application example_resolver)
           (GET "192.168.122.10" "/latest/meta-data/public-keys/0/")
     = Finished ("openssh-key" ++ nl ++ "fingerprint")
  /\ serve unquote (application example_resolver)
           (GET "192.168.122.10" "/latest/meta-data/public-keys/0/openssh-key")
     = Finished "AAAA...".
Proof.
  pose proof (public_keys_protocol unquote unquote_plain example_resolver
                "192.168.122.10" "latest" example_machine
                eq_refl eq_refl) as [_ [_ [_ H]]].
  destruct (H "0" 0 "id_rsa"
              [("openssh-key", "AAAA..."); ("fingerprint", "12:34")]
              eq_refl eq_refl eq_refl) as [H2 H3].
  split; [reflexivity|]. split; [exact H2|].
  exact (H3 "openssh-key" "AAAA..." eq_refl eq_refl).
Defined.

(** C1 at index 5 of the example, which has one key. *)
Lemma key_index_out_of_range_raises_witness :
  length (get_keys example_machine) <= 5
  /\ serve unquote (application example_resolver)
           (GET "192.168.122.10" "/latest/meta-data/public-keys/5/")
     = Uncaught IndexError
  /\ serve unquote (application example_resolver)
           (GET "192.168.122.10" "/latest/meta-data/public-keys/5/openssh-key")
     = Uncaught IndexError.
Proof.
  assert (Hlen : length (get_keys example_machine) <= 5) by (cbn; lia).
  split; [exact Hlen|].
  pose proof (key_index_out_of_range_raises unquote unquote_plain
                example_resolver "192.168.122.10" "latest" "5"
                example_machine 5 eq_refl eq_refl eq_refl eq_refl Hlen)
    as [H1 [H2 _]].
  split; [exact H1|]. exact (H2 "openssh-key" eq_refl).
Defined.

(** C2: the claim has one line for each entry under [meta-data/] other than
    the listing route; the registered table has eleven such entries and the
    listing eight lines. *)
Lemma listing_skips_deeper_routes :
  exists urls,
    fst (for_each urlspecs [] MetadataHandler_step initial) = Normal urls
    /\ length (filter under_metadata urlspecs) = 11
    /\ length urls = 8
    /\ length urls <> length (filter under_metadata urlspecs).
Proof.
  eexists. split; [vm_compute; reflexivity|].
  split; [vm_compute; reflexivity|].
  split; [reflexivity|]. vm_compute. discriminate.
Qed.

(** C2, amended, at the example. *)
Lemma metadata_listing_registration_order_witness :
  serve unquote (application example_resolver)
        (GET "192.168.122.10" "/latest/meta-data/")
  = Finished
      (join nl ["instance-id"; "instance-type"; "hostname"; "local-hostname";
                "local-ipv4"; "public-ipv4"; "placement/"; "public-keys/"]).
Proof.
  destruct (metadata_listing_registration_order unquote)
    as [_ [_ [_ [_ [H _]]]]].
  exact (H example_resolver "192.168.122.10" "latest" example_machine
           eq_refl eq_refl).
Defined.

(** C5: in the registered table the literal route does not come before the
    catch-all route. *)
Lemma literal_zone_route_not_first :
  ~ precedes literal_route catch_all_route routes.
Proof.
  intros [i [j [Hlt [Hi Hj]]]].
  assert (Ei : i = 12).
  { do 17 (destruct i as [|i]; [try discriminate Hi; reflexivity|]).
    destruct i; discriminate Hi. }
  assert (Ej : j = 11).
  { do 17 (destruct j as [|j]; [try discriminate Hj; reflexivity|]).
    destruct j; discriminate Hj. }
  lia.
Qed.

(** C5, amended, at the version token [latest]. *)
Lemma zone_route_not_shadowed_witness :
  find_handler unquote urlspecs "/latest/meta-data/placement/availability-zone"
  = Some (PlacementAvailabilityZoneHandler, (["availability-zone"], []))
  /\ serve unquote (application example_resolver)
           (GET "192.168.122.10" "/latest/meta-data/placement/availability-zone")
     = Finished "zone-a".
Proof.
  destruct (zone_route_not_shadowed unquote unquote_plain) as [_ [_ H]].
  destruct (H "latest" eq_refl) as [_ [H1 H2]].
  split; [exact H1|].
  exact (H2 example_resolver "192.168.122.10" example_machine eq_refl).
Defined.

(** C4: a request from an address that does not resolve is answered with
    status 500, not with a not-found response. *)
Lemma unresolved_address_is_not_not_found :
  example_resolver "192.168.122.99" = None
  /\ serve unquote (application example_resolver)
           (GET "192.168.122.99" "/latest/meta-data/instance-id")
     = Uncaught AssertionError
  /\ status_code (serve unquote (application example_resolver)
                        (GET "192.168.122.99" "/latest/meta-data/instance-id"))
     <> 404.
Proof.
  split; [reflexivity|]. split; [reflexivity|]. vm_compute. discriminate.
Qed.

(** C4, amended, at an address the example resolver does not know. *)
Lemma unresolved_address_fails_every_route_witness :
  example_resolver "192.168.122.99" = None
  /\ serve unquote (application example_resolver)
           (GET "192.168.122.99" "/latest/meta-data/instance-id")
     = Uncaught AssertionError
  /\ serve unquote (application example_resolver)
           (GET "192.168.122.99" "/latest/user-data")
     = Uncaught AssertionError.
Proof.
  split; [reflexivity|].
  destruct (unresolved_address_fails_every_route unquote example_resolver
              "192.168.122.99" eq_refl) as [_ [_ [H _]]].
  split.
  - apply (H "latest" "meta-data/instance-id" eq_refl). cbn. tauto.
  - apply (H "latest" "user-data" eq_refl). cbn. tauto.
Defined.

(** C10 at an address the example resolver does not know. *)
Lemma every_route_resolves_machine_first_witness :
  example_resolver "192.168.122.99" = None
  /\ serve unquote (application example_resolver) (GET "192.168.122.99" "/")
     = Uncaught AssertionError
  /\ serve unquote (application example_resolver)
           (GET "192.168.122.99" "/latest")
     = Uncaught AssertionError.
Proof.
  split; [reflexivity|].
  destruct (every_route_resolves_machine_first unquote) as [_ [H _]].
  pose proof (H example_resolver "192.168.122.99" "latest" eq_refl eq_refl) as F.
  split; [exact (Forall_inv F) | exact (Forall_inv (Forall_inv_tail F))].
Defined.

(** X1 at the example. *)
Lemma leaf_handlers_project_witness :
  serve unquote (application example_resolver)
        (GET "192.168.122.10" "/latest/meta-data/hostname")
  = Finished "guest.example.org".
Proof.
  apply (leaf_handlers_project unquote example_resolver "192.168.122.10"
           "latest" example_machine eq_refl eq_refl "hostname" get_hostname).
  cbn. tauto.
Defined.

(** X2 at the example. *)
Lemma user_data_verbatim_witness :
  serve unquote (application example_resolver)
        (GET "192.168.122.10" "/latest/user-data")
  = Finished "#!/bin/sh".
Proof.
  exact (proj1 (user_data_verbatim unquote example_resolver "192.168.122.10"
                  "latest" example_machine eq_refl eq_refl)).
Defined.

(** X3 at two version tokens. *)
Lemma version_token_irrelevant_witness :
  serve unquote (application example_resolver)
        (GET "192.168.122.10" "/1.0/meta-data/public-keys/0/openssh-key")
  = serve unquote (application example_resolver)
          (GET "192.168.122.10" "/latest/meta-data/public-keys/0/openssh-key").
Proof.
  exact (proj2 (version_token_irrelevant unquote example_resolver
                  "192.168.122.10" "1.0" "latest"
                  "meta-data/public-keys/0/openssh-key" eq_refl eq_refl)).
Defined.

(** X4 at the example: a format of the key, and one it does not have. *)
Lemma fetch_listed_formats_witness :
  serve unquote (application example_resolver)
        (GET "192.168.122.10" "/latest/meta-data/public-keys/0/fingerprint")
  = Finished "12:34"
  /\ serve unquote (application example_resolver)
           (GET "192.168.122.10" "/latest/meta-data/public-keys/0/pem")
     = Uncaught (KeyError "pem").
Proof.
  split.
  - destruct (fetch_listed_formats unquote unquote_plain example_resolver
                "192.168.122.10" "latest" "0" "fingerprint" "id_rsa"
                example_machine 0
                [("openssh-key", "AAAA..."); ("fingerprint", "12:34")]
                eq_refl eq_refl eq_refl eq_refl eq_refl eq_refl) as [Hin _].
    destruct Hin as [material [Hm E]]; [cbn; tauto|].
    cbn in Hm. destruct Hm as [[=] | [[= <-] | []]]. exact E.
  - destruct (fetch_listed_formats unquote unquote_plain example_resolver
                "192.168.122.10" "latest" "0" "pem" "id_rsa"
                example_machine 0
                [("openssh-key", "AAAA..."); ("fingerprint", "12:34")]
                eq_refl eq_refl eq_refl eq_refl eq_refl eq_refl) as [_ Hout].
    apply Hout. cbn. intros [[=] | [[=] | []]].
Defined.

(** X5 at the example. *)
Lemma optional_trailing_slash_witness :
  serve unquote (application example_resolver)
        (GET "192.168.122.10" "/latest/meta-data/public-keys/0")
  = serve unquote (application example_resolver)
          (GET "192.168.122.10" "/latest/meta-data/public-keys/0/")
  /\ serve unquote (application example_resolver)
           (GET "192.168.122.10" "/latest")
     <> serve unquote (application example_resolver)
              (GET "192.168.122.10" "/latest/").
Proof.
  destruct (optional_trailing_slash unquote unquote_plain example_resolver
              "192.168.122.10" "latest" eq_refl) as [_ [_ [_ [Hk Hn]]]].
  split; [exact (Hk "0" eq_refl)|].
  exact (proj1 (Hn example_machine eq_refl)).
Defined.

(** X6 at the example. *)
Lemma nothing_below_a_leaf_witness :
  serve unquote (application example_resolver)
        (GET "192.168.122.10" "/latest/meta-data/hostname/")
  = NoRoute.
Proof.
  apply (nothing_below_a_leaf unquote example_resolver "192.168.122.10"
           "latest" "hostname" "" eq_refl).
  cbn. tauto.
Defined.

(** X8 at the registered table and its reverse. *)
Lemma listing_follows_table_witness :
  exists lines,
    execute (application example_resolver) (GET "192.168.122.10" "/")
            MetadataHandler [] []
    = Finished (join nl lines)
    /\ execute {| handlers := rev urlspecs;
                  machine_resolver := example_resolver |}
               (GET "192.168.122.10" "/") MetadataHandler [] []
       = Finished (join nl (rev lines)).
Proof.
  destruct (listing_follows_table
              (application example_resolver)
              {| handlers := rev urlspecs; machine_resolver := example_resolver |}
              (GET "192.168.122.10" "/") (GET "192.168.122.10" "/")
              example_machine example_machine eq_refl eq_refl) as [H _].
  exact (H eq_refl).
Defined.

(** X9 at a path that asks for a key the example does not have. *)
Lemma requests_end_in_known_ways_witness :
  match serve unquote (application example_resolver)
              (GET "192.168.122.10" "/latest/meta-data/public-keys/7/") with
  | Finished _ => example_resolver "192.168.122.10" <> None
  | NoRoute => True
  | Uncaught AssertionError => example_resolver "192.168.122.10" = None
  | Uncaught IndexError => example_resolver "192.168.122.10" <> None
  | Uncaught (KeyError _) => example_resolver "192.168.122.10" <> None
  | Uncaught _ => False
  end.
Proof.
  exact (requests_end_in_known_ways unquote unquote_plain example_resolver
           "192.168.122.10" "/latest/meta-data/public-keys/7/").
Defined.

(** X10 at the registered table. *)
Lemma listing_lines_are_components_witness :
  exists lines,
    execute (application example_resolver) (GET "192.168.122.10" "/")
            MetadataHandler [] []
    = Finished (join nl lines)
    /\ Forall (fun line =>
                 exists x,
                   nonempty x = true
                   /\ all_chars (fun c => negb (Ascii.eqb c "/")) x = true
                   /\ (line = x \/ line = (x ++ "/")%string))
              lines.
Proof.
  exact (listing_lines_are_components (application example_resolver)
           (GET "192.168.122.10" "/") example_machine eq_refl).
Defined.

(** X11 at the example. *)
Lemma listing_lines_are_routed_witness :
  exists lines,
    serve unquote (application example_resolver)
          (GET "192.168.122.10" "/latest/meta-data/")
    = Finished (join nl lines)
    /\ forall line,
         In line lines ->
         exists body,
           serve unquote (application example_resolver)
                 (GET "192.168.122.10" ("/latest/meta-data/" ++ line))
           = Finished body.
Proof.
  exact (listing_lines_are_routed unquote example_resolver "192.168.122.10"
           "latest" example_machine eq_refl eq_refl).
Defined.
